(** * PersistentStore: a shallow embedding of
      openr/config-store/PersistentStore.cpp

    The store keeps a key-value image in memory, answers STORE / LOAD / ERASE
    requests read from a reply socket, and writes the image to one file,
    either inline or from a timer driven by an exponential backoff.

    The embedding passes the object state ([PersistentStore.t]) and the file
    system ([folly.FileSystem]) explicitly.  A call that can end in
    [std::terminate] (an exception leaving a [noexcept] function, [LOG(FATAL)])
    returns an [Outcome]. *)

From Stdlib Require Import ZArith Lia Ascii String.
From stdpp Require Import base option gmap strings list fin_maps.

Set Default Proof Using "Type".

(** ** Outcomes of calls that may abort the process *)

Inductive Outcome (A : Type) : Type :=
| Returns (a : A)
| Terminates.
Arguments Returns {A} a.
Arguments Terminates {A}.

Definition bindO {A B : Type} (k : A -> Outcome B) (m : Outcome A) : Outcome B :=
  match m with
  | Returns a => k a
  | Terminates => Terminates
  end.

#[global] Instance Outcome_bind : MBind Outcome := @bindO.
#[global] Instance Outcome_ret : MRet Outcome := @Returns.

(** ** The thrift structures of the request protocol and of the image *)

Module thrift.

(** The operation tag is a C++ enum over an integer: a peer can send a tag
    that is none of the three enumerators. *)
Inductive StoreRequestType : Type :=
| STORE
| LOAD
| ERASE
| Unrecognized (tag : Z).

Definition isLOAD (t : StoreRequestType) : bool :=
  match t with
  | LOAD => true
  | _ => false
  end.

Module StoreRequest.
Record t : Type := mk {
  requestType : StoreRequestType;
  key : string;
  data : string;
}.
End StoreRequest.

Module StoreResponse.
Record t : Type := mk {
  success : bool;
  key : string;
  data : string;
}.

(** A default-constructed response. *)
Definition default : t := mk false "" "".
End StoreResponse.

Module StoreDatabase.
Record t : Type := mk {
  keyVals : gmap string string;
}.

Definition empty : t := mk ∅.
End StoreDatabase.

End thrift.
Import thrift.

(** [std::map::erase(key)]: the number of elements removed and the map left. *)
Definition erase (k : string) (m : gmap string string) : nat * gmap string string :=
  (match m !! k with Some _ => 1%nat | None => 0%nat end, delete k m).

(** ** The serializer boundary

    [serializer_] turns the image into the bytes of the file and back.  Either
    direction can raise: [None] stands for an exception. *)

Class Serializer : Type := {
  serialize : StoreDatabase.t -> option string;
  deserialize : string -> option StoreDatabase.t;
}.

(** What the store expects of its serializer: it encodes every image, and
    what it encoded decodes to the same image. *)
Definition neverRaises (S : Serializer) : Prop :=
  forall db, is_Some (serialize db).

Definition roundTrips (S : Serializer) : Prop :=
  forall db fileData, serialize db = Some fileData -> deserialize fileData = Some db.

(** ** The file at [storageFilePath_] *)

Module folly.

Inductive IOError : Type :=
| EACCES   (* permission denied *)
| ENOSPC   (* no space left on the device *)
| EIO.     (* any other input/output error *)

Record FileSystem : Type := mkFS {
  (** contents of the file at the storage path, [None] when there is none *)
  file : option string;
  (** the error an atomic write of the file meets, if any *)
  writeFault : option IOError;
  (** the error a read of the file meets, if any *)
  readFault : option IOError;
  (** how many atomic writes of the file were asked for so far *)
  writeCalls : N;
}.

Definition setWriteFault (w : option IOError) (fs : FileSystem) : FileSystem :=
  mkFS (file fs) w (readFault fs) (writeCalls fs).

(** The file system after a write that went through, and after one that did
    not. *)
Definition written (fileData : string) (fs : FileSystem) : FileSystem :=
  mkFS (Some fileData) (writeFault fs) (readFault fs) (N.succ (writeCalls fs)).

Definition refused (fs : FileSystem) : FileSystem :=
  mkFS (file fs) (writeFault fs) (readFault fs) (N.succ (writeCalls fs)).

(** [folly::readFile]: false when the file cannot be opened or read. *)
Definition readFile (fs : FileSystem) : option string :=
  match readFault fs with
  | Some _ => None
  | None => file fs
  end.

(** [folly::writeFileAtomic]: the data goes to a temporary file that is
    renamed over the target.  On an error it throws [std::system_error],
    given here as the first component, and the target is as it was. *)
Definition writeFileAtomic (fs : FileSystem) (fileData : string)
  : option IOError * FileSystem :=
  match writeFault fs with
  | Some e => (Some e, refused fs)
  | None => (None, written fileData fs)
  end.

End folly.
Import folly.

(** ** The timer and the backoff the store is built on *)

Module fbzmq.

(** Modelled from the spec: [fbzmq::ZmqTimeout], the one-shot timer of the
    event loop.  It is either idle or scheduled to fire after a delay (in
    milliseconds); firing clears the pending flag and runs the callback. *)
Record ZmqTimeout : Type := mkTimeout {
  pending : option Z;
}.

Definition idle : ZmqTimeout := mkTimeout None.

Definition isScheduled (t : ZmqTimeout) : bool :=
  match pending t with
  | Some _ => true
  | None => false
  end.

Definition scheduleTimeout (delay : Z) (_ : ZmqTimeout) : ZmqTimeout :=
  mkTimeout (Some delay).

End fbzmq.
Import fbzmq.

Module ExponentialBackoff.

(** Modelled from the spec: the class [ExponentialBackoff] of openr/common,
    whose source is not part of this file.  Its state is the initial delay,
    the maximum delay and the current delay (milliseconds). *)
Record t : Type := mk {
  initialBackoff_ : Z;
  maxBackoff_ : Z;
  currentBackoff_ : Z;
}.

(** Modelled from the spec: a new backoff is on a clean streak, its current
    delay is the initial delay. *)
Definition make (initialBackoff maxBackoff : Z) : t :=
  mk initialBackoff maxBackoff initialBackoff.

(** Modelled from the spec: a success resets the current delay to the
    initial value. *)
Definition reportSuccess (b : t) : t :=
  mk (initialBackoff_ b) (maxBackoff_ b) (initialBackoff_ b).

(** Modelled from the spec: a failure doubles the current delay, up to the
    configured maximum. *)
Definition reportError (b : t) : t :=
  mk (initialBackoff_ b) (maxBackoff_ b)
     (Z.min (2 * currentBackoff_ b) (maxBackoff_ b)).

(** Modelled from the spec: the delay of the next flush is the current
    delay. *)
Definition getTimeRemainingUntilRetry (b : t) : Z := currentBackoff_ b.

End ExponentialBackoff.

(** ** The store *)

Module PersistentStore.

(** [saveDbTimerBackoff_] and [saveDbTimer_] are created together, under one
    test of the constructor, or not at all. *)
Record SaveTimer : Type := mkSaveTimer {
  saveDbTimerBackoff_ : ExponentialBackoff.t;
  saveDbTimer_ : ZmqTimeout;
}.

Record t : Type := mk {
  database_ : StoreDatabase.t;
  saveTimer : option SaveTimer;
  numOfWritesToDisk_ : N;
}.

Definition set_database (db : StoreDatabase.t) (st : t) : t :=
  mk db (saveTimer st) (numOfWritesToDisk_ st).

Definition set_saveTimer (s : SaveTimer) (st : t) : t :=
  mk (database_ st) (Some s) (numOfWritesToDisk_ st).

Definition count_write (st : t) : t :=
  mk (database_ st) (saveTimer st) (N.succ (numOfWritesToDisk_ st)).

Section WithSerializer.
Context `{Serializer}.

(** [saveDatabaseToDisk() noexcept]: the image is serialized before the
    [try]; an exception there leaves a [noexcept] function.  The write is
    inside the [try]; its exception is logged and turned into [false]. *)
Definition saveDatabaseToDisk (st : t) (fs : FileSystem)
  : Outcome (bool * t * FileSystem) :=
  match serialize (database_ st) with
  | None => Terminates
  | Some fileData =>
      match writeFileAtomic fs fileData with
      | (None, fs') => Returns (true, count_write st, fs')
      | (Some _, fs') => Returns (false, st, fs')
      end
  end.

(** [loadDatabaseFromDisk() noexcept] *)
Definition loadDatabaseFromDisk (st : t) (fs : FileSystem) : bool * t :=
  match readFile fs with
  | None => (false, st)
  | Some fileData =>
      match deserialize fileData with
      | Some newDatabase => (true, set_database newDatabase st)
      | None => (false, st)
      end
  end.

(** The [switch] of [processRequest]: the response and the image after the
    operation. *)
Definition dispatch (request : StoreRequest.t) (db : StoreDatabase.t)
  : StoreResponse.t * StoreDatabase.t :=
  let k := StoreRequest.key request in
  let kv := StoreDatabase.keyVals db in
  match StoreRequest.requestType request with
  | STORE =>
      (StoreResponse.mk true k "",
       StoreDatabase.mk (<[k := StoreRequest.data request]> kv))
  | LOAD =>
      match kv !! k with
      | Some v => (StoreResponse.mk true k v, db)
      | None => (StoreResponse.mk false k "", db)
      end
  | ERASE =>
      let '(n, kv') := erase k kv in
      (StoreResponse.mk (0 <? n)%nat k "", StoreDatabase.mk kv')
  | Unrecognized _ => (StoreResponse.mk false k "", db)
  end.

(** The block "Schedule database save" of [processRequest], entered after a
    successful request that is not a LOAD. *)
Definition scheduleSave (st : t) (fs : FileSystem) : Outcome (t * FileSystem) :=
  match saveTimer st with
  | None =>
      '(_, st', fs') ← saveDatabaseToDisk st fs;
      mret (st', fs')
  | Some (mkSaveTimer backoff timer) =>
      if isScheduled timer then mret (st, fs)
      else
        let delay := ExponentialBackoff.getTimeRemainingUntilRetry backoff in
        mret (set_saveTimer (mkSaveTimer backoff (scheduleTimeout delay timer)) st,
              fs)
  end.

(** [processRequest()]: [request] is what [recvThriftObj] gave, [None] when
    the message could not be read or decoded.  The response returned is the
    one handed to [sendThriftObj]. *)
Definition processRequest (request : option StoreRequest.t)
    (st : t) (fs : FileSystem)
  : Outcome (StoreResponse.t * t * FileSystem) :=
  match request with
  | None => mret (StoreResponse.default, st, fs)
  | Some request =>
      let '(response, db) := dispatch request (database_ st) in
      let st1 := set_database db st in
      if StoreResponse.success response
         && negb (isLOAD (StoreRequest.requestType request))
      then
        '(st2, fs2) ← scheduleSave st1 fs;
        mret (response, st2, fs2)
      else mret (response, st1, fs)
  end.

(** The callback given to [saveDbTimer_] by the constructor. *)
Definition saveDbTimerCallback (st : t) (fs : FileSystem)
  : Outcome (t * FileSystem) :=
  '(ok, st1, fs1) ← saveDatabaseToDisk st fs;
  match saveTimer st1 with
  | Some (mkSaveTimer backoff timer) =>
      if (ok : bool) then
        mret (set_saveTimer
                (mkSaveTimer (ExponentialBackoff.reportSuccess backoff) timer) st1,
              fs1)
      else
        let backoff' := ExponentialBackoff.reportError backoff in
        let delay := ExponentialBackoff.getTimeRemainingUntilRetry backoff' in
        mret (set_saveTimer
                (mkSaveTimer backoff' (scheduleTimeout delay timer)) st1,
              fs1)
  | None => Terminates
  end.

(** The event loop fires [saveDbTimer_]: the pending flag is cleared, then the
    callback runs.  A timer that is not scheduled does not fire. *)
Definition saveDbTimerExpired (st : t) (fs : FileSystem)
  : Outcome (t * FileSystem) :=
  match saveTimer st with
  | Some (mkSaveTimer backoff timer) =>
      if isScheduled timer
      then saveDbTimerCallback (set_saveTimer (mkSaveTimer backoff idle) st) fs
      else mret (st, fs)
  | None => mret (st, fs)
  end.

(** The constructor: [bound] is whether the reply socket could be bound
    ([LOG(FATAL)] otherwise). *)
Definition make (bound : bool) (saveInitialBackoff saveMaxBackoff : Z)
    (fs : FileSystem) : Outcome t :=
  if bound then
    let st0 :=
      if negb (saveInitialBackoff =? 0)%Z || negb (saveMaxBackoff =? 0)%Z
      then
        mk StoreDatabase.empty
           (Some (mkSaveTimer
                    (ExponentialBackoff.make saveInitialBackoff saveMaxBackoff)
                    idle))
           0%N
      else mk StoreDatabase.empty None 0%N in
    mret (snd (loadDatabaseFromDisk st0 fs))
  else Terminates.

(** The destructor, once the event loop has stopped. *)
Definition destroy (st : t) (fs : FileSystem) : Outcome FileSystem :=
  '(_, _, fs') ← saveDatabaseToDisk st fs;
  mret fs'.

(** A run of [processRequest] over the messages read from the socket, with no
    timer firing in between. *)
Fixpoint processRequests (requests : list (option StoreRequest.t))
    (st : t) (fs : FileSystem)
  : Outcome (list StoreResponse.t * t * FileSystem) :=
  match requests with
  | [] => mret ([], st, fs)
  | request :: rest =>
      '(response, st1, fs1) ← processRequest request st fs;
      '(responses, st2, fs2) ← processRequests rest st1 fs1;
      mret (response :: responses, st2, fs2)
  end.

(** A run of flush attempts: before each one the environment decides whether
    the write of the file meets an error. *)
Fixpoint flushAttempts (faults : list (option IOError))
    (st : t) (fs : FileSystem) : Outcome (t * FileSystem) :=
  match faults with
  | [] => mret (st, fs)
  | fault :: rest =>
      '(st1, fs1) ← saveDbTimerCallback st (setWriteFault fault fs);
      flushAttempts rest st1 fs1
  end.

End WithSerializer.

End PersistentStore.
Import PersistentStore.

(** Which requests enter the save block: a STORE, or an ERASE of a key the
    image holds. *)
Definition successfulMutation (request : StoreRequest.t) (db : StoreDatabase.t)
  : Prop :=
  StoreRequest.requestType request = STORE
  ∨ (StoreRequest.requestType request = ERASE
     ∧ is_Some (StoreDatabase.keyVals db !! StoreRequest.key request)).

(** When the save block of [processRequest] is sure to return: the serializer
    encodes every image, or a backoff is configured and the block only looks
    at the timer. *)
Definition saveBlockReturns (S : Serializer) (st : t) : Prop :=
  neverRaises S ∨ is_Some (saveTimer st).

(** The STORE requests of a list of bindings. *)
Definition storeRequests (kvs : list (string * string))
  : list (option StoreRequest.t) :=
  map (fun kv => Some (StoreRequest.mk STORE (fst kv) (snd kv))) kvs.

(** The backoff of a store is the one configured with the delays [i] and
    [m], and its current delay lies between them. *)
Definition backoffWithin (i m : Z) (st : t) : Prop :=
  exists b tm,
    saveTimer st = Some (mkSaveTimer b tm)
    ∧ ExponentialBackoff.initialBackoff_ b = i
    ∧ ExponentialBackoff.maxBackoff_ b = m
    ∧ (i <= ExponentialBackoff.currentBackoff_ b <= m)%Z.

(** The current delay of the backoff of a store, when it has one. *)
Definition currentDelay (st : t) : option Z :=
  match saveTimer st with
  | Some s => Some (ExponentialBackoff.currentBackoff_ (saveDbTimerBackoff_ s))
  | None => None
  end.

(** The delay the save timer of a store is scheduled with, when it is. *)
Definition scheduledDelay (st : t) : option Z :=
  match saveTimer st with
  | Some s => pending (saveDbTimer_ s)
  | None => None
  end.

(** ** A concrete serializer

    Every field is written as its length in unary (that many ['1'], then a
    ['0']) followed by its characters; an image is the sequence of its
    key and value fields.  With a size limit, an image holding a longer field
    is refused, as a protocol with a bound on string sizes does. *)

Module LengthPrefixed.

Fixpoint unary (n : nat) (rest : string) : string :=
  match n with
  | O => String "0"%char rest
  | S n => String "1"%char (unary n rest)
  end.

Definition field (s rest : string) : string :=
  unary (String.length s) (s +:+ rest).

Fixpoint encodeEntries (l : list (string * string)) : string :=
  match l with
  | [] => ""
  | (k, v) :: l => field k (field v (encodeEntries l))
  end.

Fixpoint readUnary (s : string) : option (nat * string) :=
  match s with
  | String c r =>
      if Ascii.eqb c "0"%char then Some (O, r)
      else if Ascii.eqb c "1"%char then
        match readUnary r with
        | Some (n, r') => Some (S n, r')
        | None => None
        end
      else None
  | EmptyString => None
  end.

Fixpoint readChars (n : nat) (s : string) : option (string * string) :=
  match n with
  | O => Some ("", s)
  | S n =>
      match s with
      | String c r =>
          match readChars n r with
          | Some (a, b) => Some (String c a, b)
          | None => None
          end
      | EmptyString => None
      end
  end.

Definition readField (s : string) : option (string * string) :=
  match readUnary s with
  | Some (n, r) => readChars n r
  | None => None
  end.

Fixpoint decodeEntries (fuel : nat) (s : string) : option (list (string * string)) :=
  match s with
  | EmptyString => Some []
  | _ =>
      match fuel with
      | O => None
      | S fuel =>
          match readField s with
          | Some (k, r1) =>
              match readField r1 with
              | Some (v, r2) =>
                  match decodeEntries fuel r2 with
                  | Some l => Some ((k, v) :: l)
                  | None => None
                  end
              | None => None
              end
          | None => None
          end
      end
  end.

Definition withinLimit (limit : option nat) (e : string * string) : bool :=
  match limit with
  | None => true
  | Some n => (String.length (fst e) <=? n)%nat && (String.length (snd e) <=? n)%nat
  end.

Definition serializer (limit : option nat) : Serializer := {|
  serialize db :=
    let l := map_to_list (StoreDatabase.keyVals db) in
    if forallb (withinLimit limit) l then Some (encodeEntries l) else None;
  deserialize s :=
    match decodeEntries (String.length s) s with
    | Some l => Some (StoreDatabase.mk (list_to_map l))
    | None => None
    end;
|}.

End LengthPrefixed.

(** ** Stores and disks the statements are instantiated on *)

Module Examples.

(** no limit on the size of a field *)
Definition unlimited : Serializer := LengthPrefixed.serializer None.

(** fields of at most four characters *)
Definition limited : Serializer := LengthPrefixed.serializer (Some 4%nat).

(** no file yet, and no fault *)
Definition healthyDisk : FileSystem := mkFS None None None 0%N.

(** no file yet, and a volume without space left *)
Definition fullDisk : FileSystem := mkFS None (Some ENOSPC) None 0%N.

(** a file that is not an encoded image *)
Definition garbageDisk : FileSystem := mkFS (Some "garbage") None None 0%N.

(** a store without backoff (both delays zero) holding [kv] *)
Definition synchronousStore (kv : gmap string string) : t :=
  mk (StoreDatabase.mk kv) None 0%N.

(** a store with a backoff of 100 ms to 800 ms, its timer in state [timer] *)
Definition debouncedStore (kv : gmap string string) (timer : ZmqTimeout) : t :=
  mk (StoreDatabase.mk kv)
     (Some (mkSaveTimer (ExponentialBackoff.make 100 800) timer)) 0%N.

End Examples.

(** ** The event loop

    [run()] hands the loop what the constructor registered: a readable socket
    is answered by [processRequest], an elapsed [saveDbTimer_] by its
    callback.  Between two of them the disk may start or stop refusing
    writes. *)

Inductive Event : Type :=
| Request (request : option StoreRequest.t)
| TimerExpired
| DiskChanged (fault : option IOError).

Definition isRequest (e : Event) : bool :=
  match e with
  | Request _ => true
  | _ => false
  end.

Definition isTimerExpired (e : Event) : bool :=
  match e with
  | TimerExpired => true
  | _ => false
  end.

Section EventLoop.
Context `{Serializer}.

Definition step (e : Event) (st : t) (fs : FileSystem)
  : Outcome (list StoreResponse.t * t * FileSystem) :=
  match e with
  | Request request =>
      '(response, st', fs') ← processRequest request st fs;
      mret ([response], st', fs')
  | TimerExpired =>
      '(st', fs') ← saveDbTimerExpired st fs;
      mret ([], st', fs')
  | DiskChanged fault => mret ([], st, setWriteFault fault fs)
  end.

Fixpoint run (events : list Event) (st : t) (fs : FileSystem)
  : Outcome (list StoreResponse.t * t * FileSystem) :=
  match events with
  | [] => mret ([], st, fs)
  | e :: rest =>
      '(responses1, st1, fs1) ← step e st fs;
      '(responses2, st2, fs2) ← run rest st1 fs1;
      mret (responses1 ++ responses2, st2, fs2)
  end.

(** The file holds the encoding of the image the store has now. *)
Definition durable (st : t) (fs : FileSystem) : Prop :=
  exists fileData,
    serialize (database_ st) = Some fileData ∧ file fs = Some fileData.

(** The image is on disk, or a flush of it is pending. *)
Definition covered (st : t) (fs : FileSystem) : Prop :=
  is_Some (scheduledDelay st) ∨ durable st fs.

End EventLoop.

Fixpoint countEvents (p : Event -> bool) (events : list Event) : nat :=
  match events with
  | [] => 0%nat
  | e :: rest => ((if p e then 1 else 0) + countEvents p rest)%nat
  end.

(** The messages among the events, in their order. *)
Fixpoint requestsOf (events : list Event) : list (option StoreRequest.t) :=
  match events with
  | [] => []
  | Request request :: rest => request :: requestsOf rest
  | _ :: rest => requestsOf rest
  end.

(** [numOfWritesToDisk_] is a 64-bit counter: its increment wraps to zero
    after [counterMax]. *)
Definition counterMax : N := (2 ^ 64 - 1)%N.

(** The counter of the store cannot wrap during a run of the events: it is
    incremented at most once for each of them. *)
Definition counterHasRoom (st : t) (events : list Event) : Prop :=
  (numOfWritesToDisk_ st + N.of_nat (length events) <= counterMax)%N.

(** An event that does not make the disk refuse writes. *)
Definition keepsDiskWritable (e : Event) : Prop :=
  match e with
  | DiskChanged (Some _) => False
  | _ => True
  end.

(** What a decoded request does to the binding of its key: a STORE binds it
    to the data sent, an ERASE unbinds it, anything else leaves it. *)
Definition effect (request : StoreRequest.t) (bound : option string)
  : option string :=
  match StoreRequest.requestType request with
  | STORE => Some (StoreRequest.data request)
  | ERASE => None
  | _ => bound
  end.

(** How many writes of the file a run of events may ask for: with a backoff
    one for each firing of the timer, without one for each request. *)
Definition writeBudget (st : t) (events : list Event) : nat :=
  match saveTimer st with
  | Some _ => countEvents isTimerExpired events
  | None => countEvents isRequest events
  end.

(** The key a response to a message carries: the key of the request, or the
    default one when the message could not be decoded. *)
Definition echoedKey (request : option StoreRequest.t) : string :=
  match request with
  | Some request => StoreRequest.key request
  | None => ""
  end.

(** * Properties *)

(** ** The code on small inputs, by evaluation *)

(** Without backoff every mutation writes the file before it is answered. *)
Example synchronous_run :
  @processRequests Examples.unlimited
    [Some (StoreRequest.mk STORE "a" "1"); Some (StoreRequest.mk LOAD "a" "");
     Some (StoreRequest.mk STORE "b" "22"); None;
     Some (StoreRequest.mk ERASE "c" "")]
    (Examples.synchronousStore ∅) Examples.healthyDisk
  = Returns
      ([StoreResponse.mk true "a" ""; StoreResponse.mk true "a" "1";
        StoreResponse.mk true "b" ""; StoreResponse.mk false "" "";
        StoreResponse.mk false "c" ""],
       mk (StoreDatabase.mk {[ "a" := "1"; "b" := "22" ]}) None 2%N,
       mkFS (Some "10a10110b11022") None None 2%N).
Proof. vm_compute. reflexivity. Qed.

(** With a backoff the first mutation schedules the timer, the next ones find
    it scheduled, and the file is written when the timer fires. *)
Example debounced_run :
  (@processRequests Examples.unlimited
     [Some (StoreRequest.mk STORE "a" "1"); Some (StoreRequest.mk STORE "b" "22");
      Some (StoreRequest.mk ERASE "a" "")]
     (Examples.debouncedStore ∅ idle) Examples.healthyDisk
   ≫= fun '(_, st, fs) => @saveDbTimerExpired Examples.unlimited st fs)
  = Returns
      (mk (StoreDatabase.mk {[ "b" := "22" ]})
          (Some (mkSaveTimer (ExponentialBackoff.make 100 800) idle)) 1%N,
       mkFS (Some "10b11022") None None 1%N).
Proof. vm_compute. reflexivity. Qed.

(** The current delay along a run of flush attempts on a failing, then
    recovered, disk. *)
Example backoff_run :
  map (fun n =>
         match @flushAttempts Examples.unlimited
                 (take n [Some EIO; Some EIO; Some ENOSPC; Some EIO; None; Some EIO])
                 (Examples.debouncedStore ∅ idle) Examples.healthyDisk with
         | Returns (st, _) => currentDelay st
         | Terminates => None
         end)
      [0; 1; 2; 3; 4; 5; 6]%nat
  = [Some 100; Some 200; Some 400; Some 800; Some 800; Some 100; Some 200]%Z.
Proof. vm_compute. reflexivity. Qed.

(** A file that is not an encoded image is refused by the load. *)
Example garbage_run :
  @make Examples.unlimited true 0 0 Examples.garbageDisk
  = Returns (Examples.synchronousStore ∅).
Proof. vm_compute. reflexivity. Qed.

(** ** An update of the image by itself *)

Lemma set_database_same (st : t) : set_database (database_ st) st = st.
Proof. by destruct st. Qed.

(** ** The switch of [processRequest] *)

Section Dispatch.
Context `{S : Serializer}.

Lemma erase_count k (m : gmap string string) :
  (0 <? fst (erase k m))%nat = bool_decide (is_Some (m !! k)).
Proof.
  unfold erase; simpl. destruct (m !! k) as [v|] eqn:E.
  - symmetry. apply bool_decide_eq_true. by exists v.
  - symmetry. apply bool_decide_eq_false. by intros [v ?].
Qed.

Lemma dispatch_STORE k v db :
  dispatch (StoreRequest.mk STORE k v) db
  = (StoreResponse.mk true k "",
     StoreDatabase.mk (<[k := v]> (StoreDatabase.keyVals db))).
Proof. reflexivity. Qed.

Lemma dispatch_LOAD k d db :
  dispatch (StoreRequest.mk LOAD k d) db
  = (match StoreDatabase.keyVals db !! k with
     | Some v => StoreResponse.mk true k v
     | None => StoreResponse.mk false k ""
     end, db).
Proof. unfold dispatch; simpl. by destruct (StoreDatabase.keyVals db !! k). Qed.

Lemma dispatch_ERASE k d db :
  dispatch (StoreRequest.mk ERASE k d) db
  = (StoreResponse.mk (bool_decide (is_Some (StoreDatabase.keyVals db !! k))) k "",
     StoreDatabase.mk (delete k (StoreDatabase.keyVals db))).
Proof. unfold dispatch; simpl. by rewrite <- erase_count. Qed.

Lemma successfulMutation_enters request db :
  successfulMutation request db ->
  StoreResponse.success (fst (dispatch request db))
  && negb (isLOAD (StoreRequest.requestType request)) = true.
Proof.
  destruct request as [ty k d]. unfold successfulMutation; simpl.
  intros [->|[-> Hin]]; [reflexivity|].
  rewrite dispatch_ERASE; simpl. by rewrite bool_decide_eq_true_2.
Qed.

(** A LOAD is answered from the image and changes nothing. *)
Lemma processRequest_LOAD k d st fs :
  processRequest (Some (StoreRequest.mk LOAD k d)) st fs
  = Returns
      (match StoreDatabase.keyVals (database_ st) !! k with
       | Some v => StoreResponse.mk true k v
       | None => StoreResponse.mk false k ""
       end, st, fs).
Proof.
  unfold processRequest. rewrite dispatch_LOAD.
  destruct (StoreDatabase.keyVals (database_ st) !! k);
    simpl; by rewrite set_database_same.
Qed.

(** A request that enters the save block. *)
Lemma processRequest_mutation request st fs :
  successfulMutation request (database_ st) ->
  processRequest (Some request) st fs
  = '(st2, fs2) ← scheduleSave (set_database (snd (dispatch request (database_ st))) st) fs;
    mret (fst (dispatch request (database_ st)), st2, fs2).
Proof.
  intros Hm. apply successfulMutation_enters in Hm. unfold processRequest.
  destruct (dispatch request (database_ st)) as [response db]; simpl in *.
  by rewrite Hm.
Qed.

(** Without a backoff the save block returns as soon as the image can be
    encoded; with one it always returns.  The image is not touched. *)
Lemma scheduleSave_returns st fs :
  is_Some (serialize (database_ st)) ∨ is_Some (saveTimer st) ->
  exists st' fs',
    scheduleSave st fs = Returns (st', fs')
    ∧ database_ st' = database_ st
    ∧ (is_Some (saveTimer st) -> is_Some (saveTimer st')).
Proof.
  intros Hs. unfold scheduleSave, saveDatabaseToDisk.
  destruct (saveTimer st) as [[backoff timer]|] eqn:Et.
  - destruct (isScheduled timer); eexists _, _;
      (split; [reflexivity|]); split; try reflexivity; simpl; eauto.
  - destruct Hs as [[fileData Hd]|[? ?]]; [|done]. rewrite Hd.
    destruct (writeFileAtomic fs fileData) as [[e|] fs']; simpl;
      eexists _, _; (split; [reflexivity|]); split; try reflexivity;
      by intros [? ?].
Qed.

(** A request that was decoded is answered by the response of the switch,
    and the image becomes the one the switch left. *)
Lemma processRequest_decoded request st fs :
  saveBlockReturns S st ->
  exists st' fs',
    processRequest (Some request) st fs
    = Returns (fst (dispatch request (database_ st)), st', fs')
    ∧ database_ st' = snd (dispatch request (database_ st))
    ∧ saveBlockReturns S st'.
Proof.
  intros Hs. unfold processRequest.
  destruct (dispatch request (database_ st)) as [response db]; simpl.
  destruct (StoreResponse.success response && _).
  - destruct (scheduleSave_returns (set_database db st) fs)
      as (st' & fs' & E & Hdb & Ht).
    { destruct Hs as [Hs|Hs]; [left; apply Hs|by right]. }
    rewrite E. simpl. exists st', fs'. split; [reflexivity|]. split; [exact Hdb|].
    destruct Hs as [Hs|Hs]; [by left|right; by apply Ht].
  - exists (set_database db st), fs. split; [reflexivity|]. split; [reflexivity|].
    exact Hs.
Qed.

Lemma processRequests_cons request rest st fs response st1 fs1 responses st2 fs2 :
  processRequest request st fs = Returns (response, st1, fs1) ->
  processRequests rest st1 fs1 = Returns (responses, st2, fs2) ->
  processRequests (request :: rest) st fs = Returns (response :: responses, st2, fs2).
Proof. intros E1 E2. simpl. rewrite E1. simpl. rewrite E2. reflexivity. Qed.

Lemma processRequests_returns
    (requests : list (option StoreRequest.t)) (st : t) (fs : FileSystem) :
  saveBlockReturns S st ->
  exists responses st' fs',
    processRequests requests st fs = Returns (responses, st', fs').
Proof.
  revert st fs. induction requests as [|request rest IH]; intros st fs Hs.
  - by exists [], st, fs.
  - assert (E1 : exists response st1 fs1,
               processRequest request st fs = Returns (response, st1, fs1)
               ∧ saveBlockReturns S st1).
    { destruct request as [request|]; [|by eexists _, _, _].
      destruct (processRequest_decoded request st fs Hs)
        as (st1 & fs1 & E & _ & Hs1).
      eauto. }
    destruct E1 as (response & st1 & fs1 & E1 & Hs1).
    destruct (IH st1 fs1 Hs1) as (responses & st2 & fs2 & E2).
    exists (response :: responses), st2, fs2.
    exact (processRequests_cons _ _ _ _ _ _ _ _ _ _ E1 E2).
Qed.

End Dispatch.

(** ** Saving and loading the image *)

Section Persistence.
Context `{S : Serializer}.

(** Once the image is encoded, the save is decided by the write. *)
Lemma saveDatabaseToDisk_encoded st fs fileData :
  serialize (database_ st) = Some fileData ->
  saveDatabaseToDisk st fs
  = match writeFault fs with
    | None => Returns (true, count_write st, written fileData fs)
    | Some _ => Returns (false, st, refused fs)
    end.
Proof.
  intros E. unfold saveDatabaseToDisk, writeFileAtomic. rewrite E.
  by destruct (writeFault fs).
Qed.

Lemma loadDatabaseFromDisk_fails st fs :
  fst (loadDatabaseFromDisk st fs) = false -> snd (loadDatabaseFromDisk st fs) = st.
Proof.
  unfold loadDatabaseFromDisk.
  destruct (readFile fs) as [fileData|]; [|done].
  by destruct (deserialize fileData).
Qed.

(** Whether the load succeeds depends on the file only. *)
Lemma loadDatabaseFromDisk_result st st' fs :
  fst (loadDatabaseFromDisk st' fs) = fst (loadDatabaseFromDisk st fs).
Proof.
  unfold loadDatabaseFromDisk.
  destruct (readFile fs) as [fileData|]; [|done].
  by destruct (deserialize fileData).
Qed.

End Persistence.

(** ** The save block and the timer *)

Section Scheduling.
Context `{S : Serializer}.

(** With the timer idle, a mutation schedules it with the current delay. *)
Lemma processRequest_arms request st fs backoff timer :
  saveTimer st = Some (mkSaveTimer backoff timer) ->
  isScheduled timer = false ->
  successfulMutation request (database_ st) ->
  processRequest (Some request) st fs
  = Returns
      (fst (dispatch request (database_ st)),
       mk (snd (dispatch request (database_ st)))
          (Some (mkSaveTimer backoff
                   (mkTimeout (Some (ExponentialBackoff.currentBackoff_ backoff)))))
          (numOfWritesToDisk_ st),
       fs).
Proof.
  intros Et Hidle Hm. rewrite (processRequest_mutation _ _ _ Hm).
  unfold scheduleSave; simpl. rewrite Et, Hidle. reflexivity.
Qed.

(** With the timer scheduled, a request changes the image at most. *)
Lemma processRequest_armed request st fs backoff delay :
  saveTimer st = Some (mkSaveTimer backoff (mkTimeout (Some delay))) ->
  exists response db,
    processRequest request st fs = Returns (response, set_database db st, fs).
Proof.
  intros Et. destruct request as [request|].
  - unfold processRequest.
    destruct (dispatch request (database_ st)) as [response db].
    exists response, db.
    destruct (StoreResponse.success response && _); [|reflexivity].
    unfold scheduleSave; simpl. rewrite Et; simpl. reflexivity.
  - exists StoreResponse.default, (database_ st). by rewrite set_database_same.
Qed.

Lemma processRequests_armed requests st fs backoff delay :
  saveTimer st = Some (mkSaveTimer backoff (mkTimeout (Some delay))) ->
  exists responses st',
    processRequests requests st fs = Returns (responses, st', fs)
    ∧ length responses = length requests
    ∧ saveTimer st' = saveTimer st
    ∧ numOfWritesToDisk_ st' = numOfWritesToDisk_ st.
Proof.
  revert st. induction requests as [|request rest IH]; intros st Et.
  - by exists [], st.
  - destruct (processRequest_armed request st fs backoff delay Et)
      as (response & db & E1).
    destruct (IH (set_database db st) Et) as (responses & st' & E2 & Hl & Ht & Hn).
    exists (response :: responses), st'.
    split; [exact (processRequests_cons _ _ _ _ _ _ _ _ _ _ E1 E2)|].
    simpl. by rewrite Hl.
Qed.

(** One run of the callback: a save, then the bookkeeping of its result. *)
Lemma saveDbTimerCallback_encoded st fs backoff timer fileData :
  saveTimer st = Some (mkSaveTimer backoff timer) ->
  serialize (database_ st) = Some fileData ->
  saveDbTimerCallback st fs
  = match writeFault fs with
    | None =>
        Returns
          (mk (database_ st)
              (Some (mkSaveTimer (ExponentialBackoff.reportSuccess backoff) timer))
              (N.succ (numOfWritesToDisk_ st)),
           written fileData fs)
    | Some _ =>
        Returns
          (mk (database_ st)
              (Some (mkSaveTimer
                       (ExponentialBackoff.reportError backoff)
                       (mkTimeout
                          (Some (ExponentialBackoff.currentBackoff_
                                   (ExponentialBackoff.reportError backoff))))))
              (numOfWritesToDisk_ st),
           refused fs)
    end.
Proof.
  intros Et Hd. unfold saveDbTimerCallback.
  rewrite (saveDatabaseToDisk_encoded st fs fileData Hd).
  destruct (writeFault fs); simpl; by rewrite Et.
Qed.

Lemma flushAttempts_app faults1 faults2 st fs :
  flushAttempts (faults1 ++ faults2) st fs
  = '(st1, fs1) ← flushAttempts faults1 st fs; flushAttempts faults2 st1 fs1.
Proof.
  revert st fs. induction faults1 as [|fault rest IH]; intros st fs; simpl.
  - reflexivity.
  - destruct (saveDbTimerCallback st (setWriteFault fault fs)) as [[st1 fs1]|];
      simpl; [apply IH|reflexivity].
Qed.

(** A flush attempt reports its result to the backoff and leaves the
    configured delays alone. *)
Lemma flushAttempt_backoff (Hs : neverRaises S) fault st fs b tm :
  saveTimer st = Some (mkSaveTimer b tm) ->
  exists st' fs' tm',
    flushAttempts [fault] st fs = Returns (st', fs')
    ∧ saveTimer st'
      = Some (mkSaveTimer
                (match fault with
                 | None => ExponentialBackoff.reportSuccess b
                 | Some _ => ExponentialBackoff.reportError b
                 end) tm').
Proof.
  intros Et. destruct (Hs (database_ st)) as [fileData Hd]. simpl.
  rewrite (saveDbTimerCallback_encoded _ _ b tm fileData Et Hd).
  destruct fault; simpl; eauto.
Qed.

Lemma flushAttempts_backoffWithin (Hs : neverRaises S) i m faults st fs :
  (0 <= i)%Z ->
  backoffWithin i m st ->
  exists st' fs',
    flushAttempts faults st fs = Returns (st', fs') ∧ backoffWithin i m st'.
Proof.
  intros Hi. revert st fs. induction faults as [|fault rest IH]; intros st fs Hw.
  - by exists st, fs.
  - destruct Hw as (b & tm & Et & Hbi & Hbm & Hc).
    destruct (flushAttempt_backoff Hs fault st fs b tm Et)
      as (st1 & fs1 & tm1 & E1 & Et1).
    simpl in E1.
    destruct (saveDbTimerCallback st (setWriteFault fault fs))
      as [[st1' fs1']|] eqn:Ec; simpl in E1; [|discriminate].
    injection E1 as -> ->.
    destruct (IH st1 fs1) as (st' & fs' & E2 & Hw').
    { eexists _, tm1. split; [exact Et1|].
      destruct fault; simpl; repeat split; lia. }
    exists st', fs'. split; [|exact Hw']. simpl. rewrite Ec. exact E2.
Qed.

Lemma enabled_iff i m :
  negb (i =? 0)%Z || negb (m =? 0)%Z = true <-> i ≠ 0%Z ∨ m ≠ 0%Z.
Proof. by rewrite orb_true_iff, !negb_true_iff, !Z.eqb_neq. Qed.

(** What the constructor leaves in [saveTimer]. *)
Lemma make_saveTimer bound i m fs st :
  make bound i m fs = Returns st ->
  saveTimer st
  = if negb (i =? 0)%Z || negb (m =? 0)%Z
    then Some (mkSaveTimer (ExponentialBackoff.make i m) idle)
    else None.
Proof.
  unfold make. destruct bound; [|discriminate]. intros [= <-].
  unfold loadDatabaseFromDisk.
  destruct (readFile fs) as [fileData|];
    [destruct (deserialize fileData)|]; by destruct (negb _ || negb _).
Qed.

Lemma make_enabled bound i m fs st :
  make bound i m fs = Returns st ->
  i ≠ 0%Z ∨ m ≠ 0%Z ->
  saveTimer st = Some (mkSaveTimer (ExponentialBackoff.make i m) idle).
Proof.
  intros Hmake Hen. rewrite (make_saveTimer _ _ _ _ _ Hmake).
  apply enabled_iff in Hen. by rewrite Hen.
Qed.

(** After flushes that all succeeded the timer is idle and the backoff is on
    a clean streak. *)
Lemma flushAttempts_clean (Hs : neverRaises S) i m fs0 st0 n :
  make true i m fs0 = Returns st0 ->
  i ≠ 0%Z ∨ m ≠ 0%Z ->
  exists st1 fs1 b,
    flushAttempts (replicate n None) st0 fs0 = Returns (st1, fs1)
    ∧ saveTimer st1 = Some (mkSaveTimer b idle)
    ∧ ExponentialBackoff.initialBackoff_ b = i
    ∧ ExponentialBackoff.currentBackoff_ b = i.
Proof.
  intros Hmake Hen. induction n as [|n IH].
  - exists st0, fs0, (ExponentialBackoff.make i m).
    split; [reflexivity|]. by rewrite (make_enabled _ _ _ _ _ Hmake Hen).
  - destruct IH as (st1 & fs1 & b & E1 & Et & Hi & Hc).
    destruct (Hs (database_ st1)) as [fileData Hd].
    replace (replicate (Datatypes.S n) None)
      with (replicate n (@None IOError) ++ [None])
      by (rewrite <- replicate_cons_app; reflexivity).
    rewrite flushAttempts_app, E1. simpl.
    rewrite (saveDbTimerCallback_encoded _ _ b idle fileData Et Hd). simpl.
    eexists _, _, _. split; [reflexivity|]. simpl.
    split; [reflexivity|]. simpl. by rewrite Hi.
Qed.

End Scheduling.

(** ** The concrete serializer is lawful *)

Module LengthPrefixedFacts.
Import LengthPrefixed.

Lemma length_append (s r : string) :
  String.length (s +:+ r) = (String.length s + String.length r)%nat.
Proof. induction s as [|c s IH]; simpl; [reflexivity|]. by rewrite IH. Qed.

Lemma length_unary n rest :
  String.length (unary n rest) = Datatypes.S (n + String.length rest).
Proof. induction n as [|n IH]; simpl; [reflexivity|]. by rewrite IH. Qed.

Lemma readUnary_unary n rest : readUnary (unary n rest) = Some (n, rest).
Proof. induction n as [|n IH]; simpl; [reflexivity|]. by rewrite IH. Qed.

Lemma readChars_append s rest :
  readChars (String.length s) (s +:+ rest) = Some (s, rest).
Proof. induction s as [|c s IH]; simpl; [reflexivity|]. by rewrite IH. Qed.

Lemma readField_field s rest : readField (field s rest) = Some (s, rest).
Proof.
  unfold readField, field. rewrite readUnary_unary. apply readChars_append.
Qed.

Lemma length_field s rest :
  (String.length rest < String.length (field s rest))%nat.
Proof. unfold field. rewrite length_unary, length_append. lia. Qed.

Lemma length_encodeEntries l : (length l <= String.length (encodeEntries l))%nat.
Proof.
  induction l as [|[k v] l IH]; simpl; [lia|].
  pose proof (length_field k (field v (encodeEntries l))).
  pose proof (length_field v (encodeEntries l)). lia.
Qed.

Lemma decodeEntries_encodeEntries l fuel :
  (length l <= fuel)%nat -> decodeEntries fuel (encodeEntries l) = Some l.
Proof.
  revert fuel. induction l as [|[k v] l IH]; intros fuel Hfuel.
  - by destruct fuel.
  - destruct fuel as [|fuel]; simpl in Hfuel; [lia|].
    change (encodeEntries ((k, v) :: l))
      with (field k (field v (encodeEntries l))).
    assert (Hne : exists c r, field k (field v (encodeEntries l)) = String c r).
    { unfold field at 1. destruct (String.length k); simpl; eauto. }
    destruct Hne as (c & r & Hne).
    simpl. rewrite Hne, <- Hne.
    rewrite !readField_field, IH by lia. reflexivity.
Qed.

Lemma unlimited_serialize db :
  @serialize Examples.unlimited db
  = Some (encodeEntries (map_to_list (StoreDatabase.keyVals db))).
Proof.
  simpl. replace (forallb _ _) with true; [reflexivity|].
  symmetry. apply forallb_forall. reflexivity.
Qed.

Lemma unlimited_neverRaises : neverRaises Examples.unlimited.
Proof. intros db. rewrite unlimited_serialize. eauto. Qed.

Lemma unlimited_roundTrips : roundTrips Examples.unlimited.
Proof.
  intros [kv] fileData. rewrite unlimited_serialize. intros [= <-]. simpl.
  rewrite decodeEntries_encodeEntries by apply length_encodeEntries.
  by rewrite list_to_map_to_list.
Qed.

End LengthPrefixedFacts.

(** * The claims *)

(** ** saveDatabaseToDisk *)

(** C1, as the code has it: once the image is encoded, saveDatabaseToDisk
    returns, with true exactly when the file could be written; then the file
    holds the encoded image and the write counter went up by one.  On an error
    of the write (no permission, no space, any other) it returns false, and
    the store and the contents of the file are as they were. *)
Theorem save_reports_write_failure_as_false `{S : Serializer}
    (st : t) (fs : FileSystem) (fileData : string)
    (Hencoded : serialize (database_ st) = Some fileData) :
  exists ok st' fs',
    saveDatabaseToDisk st fs = Returns (ok, st', fs')
    ∧ (ok = true <-> writeFault fs = None)
    ∧ (ok = true ->
       file fs' = Some fileData
       ∧ numOfWritesToDisk_ st' = N.succ (numOfWritesToDisk_ st)
       ∧ database_ st' = database_ st)
    ∧ (ok = false -> st' = st ∧ file fs' = file fs).
Proof.
  rewrite (saveDatabaseToDisk_encoded st fs fileData Hencoded).
  destruct (writeFault fs) as [e|] eqn:Ew.
  - exists false, st, (refused fs). repeat split; done.
  - eexists true, _, _. repeat split; done.
Qed.

(** C1, as stated, fails: with a serializer that refuses a field over its
    size limit, saving an image that holds such a field does not return
    false; the call does not return at all, it ends in [std::terminate]. *)
Lemma save_terminates_on_encoding_error :
  @serialize Examples.limited (StoreDatabase.mk {[ "a" := "12345" ]}) = None
  ∧ @saveDatabaseToDisk Examples.limited
      (Examples.synchronousStore {[ "a" := "12345" ]}) Examples.healthyDisk
    = Terminates
  ∧ ¬ exists ok st' fs',
        @saveDatabaseToDisk Examples.limited
          (Examples.synchronousStore {[ "a" := "12345" ]}) Examples.healthyDisk
        = Returns (ok, st', fs').
Proof.
  assert (E : @saveDatabaseToDisk Examples.limited
                (Examples.synchronousStore {[ "a" := "12345" ]})
                Examples.healthyDisk = Terminates) by (vm_compute; reflexivity).
  split; [vm_compute; reflexivity|]. split; [exact E|].
  intros (ok & st' & fs' & E'). rewrite E in E'. discriminate.
Qed.

(** ** The backoff and the timer *)

(** C2: take a store constructed with delays 0 <= initial <= maximum, not
    both zero, and any sequence of flush attempts, each failing or succeeding
    as the disk decides.  After the sequence the current delay lies between
    the initial and the maximum delay; one more attempt that fails leaves a
    delay that is at least the previous one and at most the maximum, and one
    more attempt that succeeds leaves the initial delay. *)
Theorem backoff_delay_grows_bounded_and_resets `{S : Serializer}
    (Hs : neverRaises S) (i m : Z) (fs0 : FileSystem) (st0 : t)
    (Hdelays : (0 <= i <= m)%Z) (Henabled : i ≠ 0%Z ∨ m ≠ 0%Z)
    (Hmake : make true i m fs0 = Returns st0)
    (faults : list (option IOError)) :
  exists st fs delay,
    flushAttempts faults st0 fs0 = Returns (st, fs)
    ∧ currentDelay st = Some delay
    ∧ (i <= delay <= m)%Z
    ∧ forall fault, exists st' fs' delay',
        flushAttempts (faults ++ [fault]) st0 fs0 = Returns (st', fs')
        ∧ currentDelay st' = Some delay'
        ∧ (delay' <= m)%Z
        ∧ (is_Some fault -> (delay <= delay')%Z)
        ∧ (fault = None -> delay' = i).
Proof.
  assert (Hw0 : backoffWithin i m st0).
  { exists (ExponentialBackoff.make i m), idle.
    rewrite (make_enabled _ _ _ _ _ Hmake Henabled). simpl. repeat split; lia. }
  destruct (flushAttempts_backoffWithin Hs i m faults st0 fs0 (proj1 Hdelays) Hw0)
    as (st & fs & E & (b & tm & Et & Hbi & Hbm & Hc)).
  exists st, fs, (ExponentialBackoff.currentBackoff_ b).
  split; [exact E|]. split; [unfold currentDelay; by rewrite Et|].
  split; [exact Hc|]. intros fault.
  destruct (flushAttempt_backoff Hs fault st fs b tm Et)
    as (st' & fs' & tm' & E' & Et').
  exists st', fs'. eexists.
  split; [rewrite flushAttempts_app, E; exact E'|].
  split; [unfold currentDelay; rewrite Et'; reflexivity|].
  destruct fault as [e|]; simpl; (split; [lia|]); split.
  - intros _. lia.
  - discriminate.
  - by intros [? ?].
  - intros _. exact Hbi.
Qed.

(** C3: with a backoff configured and the save timer scheduled, requests of
    any kind and number are answered without a write of the file being asked
    for, without a change of the write counter and without a change of the
    timer or of the backoff.  Hence when the timer is idle and a successful
    mutation arrives, followed by further requests before the timer fires, no
    write happens while they are handled and the timer is scheduled once; when
    it fires, one write of the file is asked for, with the image all these
    requests left.  If the disk takes it, the write counter goes up by one and
    the timer is idle again. *)
Theorem armed_timer_absorbs_mutations `{S : Serializer} :
  (forall st fs backoff delay requests,
     saveTimer st = Some (mkSaveTimer backoff (mkTimeout (Some delay))) ->
     exists responses st',
       processRequests requests st fs = Returns (responses, st', fs)
       ∧ length responses = length requests
       ∧ saveTimer st' = saveTimer st
       ∧ numOfWritesToDisk_ st' = numOfWritesToDisk_ st)
  ∧ (forall st fs backoff timer request rest,
       saveTimer st = Some (mkSaveTimer backoff timer) ->
       isScheduled timer = false ->
       successfulMutation request (database_ st) ->
       exists responses st1,
         processRequests (Some request :: rest) st fs = Returns (responses, st1, fs)
         ∧ length responses = Datatypes.S (length rest)
         ∧ numOfWritesToDisk_ st1 = numOfWritesToDisk_ st
         ∧ is_Some (scheduledDelay st1)
         ∧ forall fileData fault,
             serialize (database_ st1) = Some fileData ->
             exists st2 fs2,
               saveDbTimerExpired st1 (setWriteFault fault fs) = Returns (st2, fs2)
               ∧ writeCalls fs2 = N.succ (writeCalls fs)
               ∧ database_ st2 = database_ st1
               ∧ (fault = None ->
                  file fs2 = Some fileData
                  ∧ numOfWritesToDisk_ st2 = N.succ (numOfWritesToDisk_ st)
                  ∧ scheduledDelay st2 = None)).
Proof.
  split.
  - intros st fs backoff delay requests Et.
    exact (processRequests_armed requests st fs backoff delay Et).
  - intros st fs backoff timer request rest Et Hidle Hm.
    pose proof (processRequest_arms request st fs backoff timer Et Hidle Hm) as E1.
    set (st1 := mk _ _ _) in E1.
    destruct (processRequests_armed rest st1 fs backoff
                (ExponentialBackoff.currentBackoff_ backoff) eq_refl)
      as (responses & st2 & E2 & Hl & Ht & Hn).
    exists (fst (dispatch request (database_ st)) :: responses), st2.
    split; [exact (processRequests_cons _ _ _ _ _ _ _ _ _ _ E1 E2)|].
    split; [simpl; by rewrite Hl|]. split; [exact Hn|].
    split; [unfold scheduledDelay; rewrite Ht; simpl; eauto|].
    intros fileData fault Hd. unfold saveDbTimerExpired. rewrite Ht. simpl.
    rewrite (saveDbTimerCallback_encoded
               (set_saveTimer (mkSaveTimer backoff idle) st2)
               (setWriteFault fault fs) backoff idle fileData eq_refl Hd).
    destruct fault as [e|]; simpl; eexists _, _;
      (split; [reflexivity|]); (split; [reflexivity|]); (split; [reflexivity|]).
    + discriminate.
    + intros _. simpl. by rewrite Hn.
Qed.

(** C4: with a backoff configured and the save timer idle, a successful
    mutation schedules the timer with the current delay of the backoff and
    asks for no write.  For a store as constructed, and after any number of
    flushes that all succeeded, that delay is the configured initial delay.
    After a flush that failed the current delay is the one that failure
    computed, the doubled delay capped by the maximum, which is also the delay
    the callback rescheduled the timer with. *)
Theorem idle_timer_is_armed_with_current_delay `{S : Serializer} :
  (forall st fs backoff timer request,
     saveTimer st = Some (mkSaveTimer backoff timer) ->
     isScheduled timer = false ->
     successfulMutation request (database_ st) ->
     exists response st',
       processRequest (Some request) st fs = Returns (response, st', fs)
       ∧ scheduledDelay st' = Some (ExponentialBackoff.currentBackoff_ backoff)
       ∧ currentDelay st' = currentDelay st
       ∧ numOfWritesToDisk_ st' = numOfWritesToDisk_ st)
  ∧ (forall i m fs0 st0 n request fs,
       neverRaises S ->
       i ≠ 0%Z ∨ m ≠ 0%Z ->
       make true i m fs0 = Returns st0 ->
       exists st1 fs1,
         flushAttempts (replicate n None) st0 fs0 = Returns (st1, fs1)
         ∧ (successfulMutation request (database_ st1) ->
            exists response st',
              processRequest (Some request) st1 fs = Returns (response, st', fs)
              ∧ scheduledDelay st' = Some i))
  ∧ (forall st fs backoff timer e fileData,
       saveTimer st = Some (mkSaveTimer backoff timer) ->
       serialize (database_ st) = Some fileData ->
       exists st1 fs1,
         saveDbTimerCallback st (setWriteFault (Some e) fs) = Returns (st1, fs1)
         ∧ currentDelay st1
           = Some (Z.min (2 * ExponentialBackoff.currentBackoff_ backoff)
                         (ExponentialBackoff.maxBackoff_ backoff))
         ∧ scheduledDelay st1 = currentDelay st1).
Proof.
  split; [|split].
  - intros st fs backoff timer request Et Hidle Hm.
    eexists _, _.
    split; [exact (processRequest_arms request st fs backoff timer Et Hidle Hm)|].
    unfold scheduledDelay, currentDelay. by rewrite Et.
  - intros i m fs0 st0 n request fs Hs Henabled Hmake.
    destruct (flushAttempts_clean Hs i m fs0 st0 n Hmake Henabled)
      as (st1 & fs1 & b & E1 & Et & _ & Hc).
    exists st1, fs1. split; [exact E1|]. intros Hm.
    eexists _, _.
    split; [exact (processRequest_arms request st1 fs b idle Et eq_refl Hm)|].
    unfold scheduledDelay; simpl. by rewrite Hc.
  - intros st fs backoff timer e fileData Et Hd.
    rewrite (saveDbTimerCallback_encoded st _ backoff timer fileData Et Hd).
    simpl. eexists _, _. split; [reflexivity|]. split; reflexivity.
Qed.

(** C5, as the code has it: the constructor leaves the store without backoff
    exactly when both delays are zero.  In such a store a successful mutation
    runs saveDatabaseToDisk on the new image, asking for one write of the
    file, before the response is returned, and the response is a success
    whatever the save returned: when the write succeeded the file holds the
    encoding of the new image, when it failed the contents of the file are as
    they were. *)
Theorem synchronous_mode_saves_before_responding `{S : Serializer} :
  (forall bound i m fs st,
     make bound i m fs = Returns st ->
     (saveTimer st = None <-> i = 0%Z ∧ m = 0%Z))
  ∧ (forall st fs request fileData,
       saveTimer st = None ->
       successfulMutation request (database_ st) ->
       serialize (snd (dispatch request (database_ st))) = Some fileData ->
       exists ok st' fs',
         saveDatabaseToDisk
           (set_database (snd (dispatch request (database_ st))) st) fs
         = Returns (ok, st', fs')
         ∧ processRequest (Some request) st fs
           = Returns (fst (dispatch request (database_ st)), st', fs')
         ∧ StoreResponse.success (fst (dispatch request (database_ st))) = true
         ∧ database_ st' = snd (dispatch request (database_ st))
         ∧ writeCalls fs' = N.succ (writeCalls fs)
         ∧ (writeFault fs = None -> ok = true ∧ file fs' = Some fileData)
         ∧ (forall e, writeFault fs = Some e -> ok = false ∧ file fs' = file fs)).
Proof.
  split.
  - intros bound i m fs st Hmake. rewrite (make_saveTimer _ _ _ _ _ Hmake).
    destruct (Z.eqb_spec i 0) as [->|Hi]; destruct (Z.eqb_spec m 0) as [->|Hm];
      simpl; split; try done; intros [? ?]; done.
  - intros st fs request fileData Et Hm Hd.
    rewrite (processRequest_mutation _ _ _ Hm).
    unfold scheduleSave; simpl. rewrite Et.
    rewrite (saveDatabaseToDisk_encoded
               (set_database (snd (dispatch request (database_ st))) st)
               fs fileData Hd).
    apply successfulMutation_enters, andb_true_iff, proj1 in Hm.
    destruct (writeFault fs) as [e|]; eexists _, _, _;
      (split; [reflexivity|]); (split; [reflexivity|]); (split; [exact Hm|]);
      (split; [reflexivity|]); (split; [reflexivity|]); split; done.
Qed.

(** C5, as stated, fails: in a store without backoff, on a volume without
    space left, STORE("a","1") is answered with success, the image holds the
    binding, and no file holds it. *)
Lemma synchronous_store_on_full_disk_leaves_file :
  exists fs',
    @processRequest Examples.unlimited
      (Some (StoreRequest.mk STORE "a" "1"))
      (Examples.synchronousStore ∅) Examples.fullDisk
    = Returns (StoreResponse.mk true "a" "",
               Examples.synchronousStore {[ "a" := "1" ]}, fs')
    ∧ file fs' = None
    ∧ @serialize Examples.unlimited (StoreDatabase.mk {[ "a" := "1" ]})
      = Some "10a101".
Proof. eexists. vm_compute. repeat split; reflexivity. Qed.

(** ** Requests *)

(** C6: from an empty image the requests STORE("a","1"), LOAD("a"),
    ERASE("a"), LOAD("a") are answered, in this order, by
    {key "a", success}, {key "a", success, value "1"}, {key "a", success},
    {key "a", failure}.  In general STORE answers success whatever the image
    holds and leaves the key bound to the value sent; LOAD answers success
    with the stored value when the key is bound, failure otherwise, and
    changes nothing.  This holds for every store with a backoff, and for every
    store without one when the serializer does not raise. *)
Theorem store_load_erase_scenario `{S : Serializer}
    (st : t) (fs : FileSystem)
    (Hs : saveBlockReturns S st)
    (Hempty : database_ st = StoreDatabase.empty) :
  (forall d2 d3 d4, exists st' fs',
     processRequests
       [Some (StoreRequest.mk STORE "a" "1"); Some (StoreRequest.mk LOAD "a" d2);
        Some (StoreRequest.mk ERASE "a" d3); Some (StoreRequest.mk LOAD "a" d4)]
       st fs
     = Returns
         ([StoreResponse.mk true "a" ""; StoreResponse.mk true "a" "1";
           StoreResponse.mk true "a" ""; StoreResponse.mk false "a" ""],
          st', fs'))
  ∧ (forall st0 fs0 k v,
       saveBlockReturns S st0 ->
       exists st' fs',
       processRequest (Some (StoreRequest.mk STORE k v)) st0 fs0
       = Returns (StoreResponse.mk true k "", st', fs')
       ∧ StoreDatabase.keyVals (database_ st')
         = <[k := v]> (StoreDatabase.keyVals (database_ st0)))
  ∧ (forall st0 fs0 k d,
       processRequest (Some (StoreRequest.mk LOAD k d)) st0 fs0
       = Returns
           (match StoreDatabase.keyVals (database_ st0) !! k with
            | Some v => StoreResponse.mk true k v
            | None => StoreResponse.mk false k ""
            end, st0, fs0)).
Proof.
  split; [|split; [|exact (fun st0 fs0 k d => processRequest_LOAD k d st0 fs0)]].
  - intros d2 d3 d4.
    destruct (processRequest_decoded (StoreRequest.mk STORE "a" "1") st fs Hs)
      as (st1 & fs1 & E1 & Hdb1 & Hs1).
    rewrite dispatch_STORE, Hempty in E1, Hdb1; simpl in E1, Hdb1.
    pose proof (processRequest_LOAD "a" d2 st1 fs1) as E2.
    rewrite Hdb1 in E2; simpl in E2. rewrite lookup_insert_eq in E2.
    destruct (processRequest_decoded (StoreRequest.mk ERASE "a" d3) st1 fs1 Hs1)
      as (st3 & fs3 & E3 & Hdb3 & _).
    rewrite dispatch_ERASE, Hdb1 in E3, Hdb3; simpl in E3, Hdb3.
    rewrite lookup_insert_eq in E3.
    rewrite bool_decide_eq_true_2 in E3 by eauto.
    pose proof (processRequest_LOAD "a" d4 st3 fs3) as E4.
    rewrite Hdb3 in E4; simpl in E4. rewrite lookup_delete_eq in E4.
    exists st3, fs3.
    eapply processRequests_cons; [exact E1|].
    eapply processRequests_cons; [exact E2|].
    eapply processRequests_cons; [exact E3|].
    eapply processRequests_cons; [exact E4|].
    reflexivity.
  - intros st0 fs0 k v Hs0.
    destruct (processRequest_decoded (StoreRequest.mk STORE k v) st0 fs0 Hs0)
      as (st' & fs' & E & Hdb & _).
    rewrite dispatch_STORE in E, Hdb; simpl in E, Hdb.
    exists st', fs'. split; [exact E|]. by rewrite Hdb.
Qed.

(** C7: ERASE(key) answers success=true and removes the key when the key is
    present, answers success=false and leaves the store and the file as they
    were when the key is absent; after it a second ERASE of the key answers
    success=false, and a LOAD of the key answers success=false.  This holds
    for every store with a backoff, and for every store without one when the
    serializer does not raise. *)
Theorem erase_succeeds_iff_present `{S : Serializer}
    (st : t) (fs : FileSystem) (k d : string)
    (Hs : saveBlockReturns S st) :
  exists response st' fs',
    processRequest (Some (StoreRequest.mk ERASE k d)) st fs
    = Returns (response, st', fs')
    ∧ StoreResponse.key response = k
    ∧ (is_Some (StoreDatabase.keyVals (database_ st) !! k) ->
       StoreResponse.success response = true
       ∧ StoreDatabase.keyVals (database_ st')
         = delete k (StoreDatabase.keyVals (database_ st)))
    ∧ (StoreDatabase.keyVals (database_ st) !! k = None ->
       StoreResponse.success response = false ∧ st' = st ∧ fs' = fs)
    ∧ (forall d2, exists response2 st2 fs2,
         processRequest (Some (StoreRequest.mk ERASE k d2)) st' fs'
         = Returns (response2, st2, fs2)
         ∧ StoreResponse.success response2 = false)
    ∧ (forall d3,
         processRequest (Some (StoreRequest.mk LOAD k d3)) st' fs'
         = Returns (StoreResponse.mk false k "", st', fs')).
Proof.
  destruct (processRequest_decoded (StoreRequest.mk ERASE k d) st fs Hs)
    as (st' & fs' & E & Hdb & Hs').
  rewrite dispatch_ERASE in E, Hdb; simpl in E, Hdb.
  assert (Hgone : StoreDatabase.keyVals (database_ st') !! k = None).
  { rewrite Hdb; simpl. apply lookup_delete_eq. }
  exists (StoreResponse.mk
            (bool_decide (is_Some (StoreDatabase.keyVals (database_ st) !! k))) k ""),
    st', fs'.
  split; [exact E|]. split; [reflexivity|].
  split; [|split; [|split]].
  - intros Hin. split.
    + simpl. by apply bool_decide_eq_true.
    + by rewrite Hdb.
  - intros Hout.
    assert (Hno : ¬ is_Some (StoreDatabase.keyVals (database_ st) !! k)).
    { rewrite Hout. by intros [? ?]. }
    split; [simpl; by apply bool_decide_eq_false|].
    revert E. unfold processRequest. simpl. rewrite Hout. simpl.
    intros [= <- <-]. split; [|reflexivity].
    rewrite delete_id by done.
    destruct st as [[kv] tm n]; reflexivity.
  - intros d2.
    destruct (processRequest_decoded (StoreRequest.mk ERASE k d2) st' fs' Hs')
      as (st2 & fs2 & E2 & _).
    rewrite dispatch_ERASE in E2; simpl in E2.
    eexists _, st2, fs2. split; [exact E2|]. simpl.
    apply bool_decide_eq_false. rewrite Hgone. by intros [? ?].
  - intros d3. by rewrite processRequest_LOAD, Hgone.
Qed.

(** C8: a request whose operation tag is not recognised is answered with
    success=false and the key of the request, and leaves the store and the
    file system as they were (no write asked for, no timer scheduled); a
    message that could not be decoded is answered with the default response
    (success=false, empty key) and leaves the store and the file system as
    they were.  In both cases the handler returns. *)
Theorem unknown_or_undecodable_request_is_refused `{S : Serializer}
    (st : t) (fs : FileSystem) (tag : Z) (k d : string) :
  processRequest (Some (StoreRequest.mk (Unrecognized tag) k d)) st fs
  = Returns (StoreResponse.mk false k "", st, fs)
  ∧ processRequest None st fs = Returns (StoreResponse.mk false "" "", st, fs).
Proof.
  split; [|reflexivity].
  unfold processRequest, dispatch; simpl. by rewrite set_database_same.
Qed.

(** ** The round trip through the file *)

(** C9: let the image of a store be the result of any sequence of STORE
    requests on an empty image.  With a serializer that encodes every image
    and decodes what it encoded, and a disk without fault, saveDatabaseToDisk
    returns true and loadDatabaseFromDisk on the file it wrote, in a store
    whose image is empty, returns true and leaves that store with the same
    image: the same keys bound to the same values. *)
Theorem save_then_load_restores_image `{S : Serializer}
    (Hs : neverRaises S) (Hrt : roundTrips S)
    (kvs : list (string * string)) (st0 : t) (fs0 : FileSystem)
    (Hempty : database_ st0 = StoreDatabase.empty) :
  exists responses st fs1,
    processRequests (storeRequests kvs) st0 fs0 = Returns (responses, st, fs1)
    ∧ forall fs fresh,
        writeFault fs = None -> readFault fs = None ->
        database_ fresh = StoreDatabase.empty ->
        exists st' fs',
          saveDatabaseToDisk st fs = Returns (true, st', fs')
          ∧ loadDatabaseFromDisk fresh fs'
            = (true, set_database (database_ st) fresh)
          ∧ forall k,
              StoreDatabase.keyVals (database_ (snd (loadDatabaseFromDisk fresh fs'))) !! k
              = StoreDatabase.keyVals (database_ st) !! k.
Proof.
  destruct (processRequests_returns (storeRequests kvs) st0 fs0 (or_introl Hs))
    as (responses & st & fs1 & E).
  exists responses, st, fs1. split; [exact E|].
  intros fs fresh Hw Hr _.
  destruct (Hs (database_ st)) as [fileData Hd].
  rewrite (saveDatabaseToDisk_encoded st fs fileData Hd), Hw.
  eexists _, _. split; [reflexivity|].
  assert (Hload : loadDatabaseFromDisk fresh (written fileData fs)
                  = (true, set_database (database_ st) fresh)).
  { unfold loadDatabaseFromDisk, readFile; simpl. rewrite Hr.
    by rewrite (Hrt _ _ Hd). }
  split; [exact Hload|]. intros k. by rewrite Hload.
Qed.

(** C10: when loadDatabaseFromDisk fails (no file, a file that cannot be
    read, contents that do not decode) it returns false and the store is as
    it was; it returns true only after the whole file was decoded, and then
    the image is the decoded one.  At startup the constructor does not abort
    on such a file: it returns a store with the empty image. *)
Theorem load_failure_leaves_image `{S : Serializer} (st : t) (fs : FileSystem) :
  (file fs = None -> loadDatabaseFromDisk st fs = (false, st))
  ∧ (forall e, readFault fs = Some e -> loadDatabaseFromDisk st fs = (false, st))
  ∧ (forall fileData,
       readFile fs = Some fileData -> deserialize fileData = None ->
       loadDatabaseFromDisk st fs = (false, st))
  ∧ (fst (loadDatabaseFromDisk st fs) = false ->
     snd (loadDatabaseFromDisk st fs) = st)
  ∧ (fst (loadDatabaseFromDisk st fs) = true ->
     exists fileData db,
       readFile fs = Some fileData ∧ deserialize fileData = Some db
       ∧ snd (loadDatabaseFromDisk st fs) = set_database db st)
  ∧ (forall initialBackoff maxBackoff,
       fst (loadDatabaseFromDisk st fs) = false ->
       exists st0,
         make true initialBackoff maxBackoff fs = Returns st0
         ∧ database_ st0 = StoreDatabase.empty).
Proof.
  split; [|split; [|split; [|split; [|split]]]].
  - intros Hf. unfold loadDatabaseFromDisk, readFile. rewrite Hf.
    by destruct (readFault fs).
  - intros e He. unfold loadDatabaseFromDisk, readFile. by rewrite He.
  - intros fileData Hr Hd. unfold loadDatabaseFromDisk. by rewrite Hr, Hd.
  - apply loadDatabaseFromDisk_fails.
  - unfold loadDatabaseFromDisk.
    destruct (readFile fs) as [fileData|]; [|done].
    destruct (deserialize fileData) as [db|] eqn:Ed; [|done].
    intros _. by exists fileData, db.
  - intros i m Hfail. unfold make. eexists. split; [reflexivity|].
    destruct (negb _ || negb _);
      (rewrite loadDatabaseFromDisk_fails;
       [reflexivity|by rewrite (loadDatabaseFromDisk_result st)]).
Qed.

(** * The statements at concrete stores *)

Import LengthPrefixedFacts.

Lemma save_reports_write_failure_as_false_witness :
  @serialize Examples.unlimited
     (database_ (Examples.synchronousStore {[ "a" := "1" ]})) = Some "10a101"
  ∧ exists ok st' fs',
      @saveDatabaseToDisk Examples.unlimited
        (Examples.synchronousStore {[ "a" := "1" ]}) Examples.fullDisk
      = Returns (ok, st', fs')
      ∧ (ok = true <-> writeFault Examples.fullDisk = None).
Proof.
  assert (Hd : @serialize Examples.unlimited
                 (database_ (Examples.synchronousStore {[ "a" := "1" ]}))
               = Some "10a101") by (vm_compute; reflexivity).
  split; [exact Hd|].
  destruct (@save_reports_write_failure_as_false Examples.unlimited
              (Examples.synchronousStore {[ "a" := "1" ]}) Examples.fullDisk
              "10a101" Hd)
    as (ok & st' & fs' & E & Hok & _).
  by exists ok, st', fs'.
Defined.

Lemma backoff_delay_grows_bounded_and_resets_witness :
  make (H := Examples.unlimited) true 100 800 Examples.healthyDisk
  = Returns (Examples.debouncedStore ∅ idle)
  ∧ exists st fs delay,
      @flushAttempts Examples.unlimited [Some EIO; Some ENOSPC; Some EIO; Some EIO]
        (Examples.debouncedStore ∅ idle) Examples.healthyDisk
      = Returns (st, fs)
      ∧ currentDelay st = Some delay
      ∧ (100 <= delay <= 800)%Z.
Proof.
  assert (Hmake : make (H := Examples.unlimited) true 100 800 Examples.healthyDisk
                  = Returns (Examples.debouncedStore ∅ idle)) by reflexivity.
  split; [exact Hmake|].
  destruct (@backoff_delay_grows_bounded_and_resets Examples.unlimited
              unlimited_neverRaises 100 800 Examples.healthyDisk
              (Examples.debouncedStore ∅ idle)
              ltac:(lia) ltac:(left; lia) Hmake
              [Some EIO; Some ENOSPC; Some EIO; Some EIO])
    as (st & fs & delay & E & Hc & Hb & _).
  by exists st, fs, delay.
Defined.

Lemma armed_timer_absorbs_mutations_witness :
  exists responses st1 st2 fs2,
    @processRequests Examples.unlimited
      [Some (StoreRequest.mk STORE "a" "1"); Some (StoreRequest.mk STORE "b" "2");
       Some (StoreRequest.mk ERASE "a" "")]
      (Examples.debouncedStore ∅ idle) Examples.healthyDisk
    = Returns (responses, st1, Examples.healthyDisk)
    ∧ numOfWritesToDisk_ st1 = 0%N
    ∧ is_Some (scheduledDelay st1)
    ∧ @saveDbTimerExpired Examples.unlimited st1 Examples.healthyDisk
      = Returns (st2, fs2)
    ∧ writeCalls fs2 = 1%N
    ∧ numOfWritesToDisk_ st2 = 1%N.
Proof.
  destruct (proj2 (@armed_timer_absorbs_mutations Examples.unlimited)
              (Examples.debouncedStore ∅ idle) Examples.healthyDisk
              (ExponentialBackoff.make 100 800) idle
              (StoreRequest.mk STORE "a" "1")
              [Some (StoreRequest.mk STORE "b" "2");
               Some (StoreRequest.mk ERASE "a" "")]
              eq_refl eq_refl (or_introl eq_refl))
    as (responses & st1 & E & _ & Hn & Hd & Hfire).
  destruct (Hfire _ None (unlimited_serialize (database_ st1)))
    as (st2 & fs2 & E2 & Hcalls & _ & Hok).
  destruct (Hok eq_refl) as (_ & Hn2 & _).
  by exists responses, st1, st2, fs2.
Defined.

Lemma idle_timer_is_armed_with_current_delay_witness :
  exists response st',
    @processRequest Examples.unlimited
      (Some (StoreRequest.mk STORE "a" "1"))
      (Examples.debouncedStore ∅ idle) Examples.healthyDisk
    = Returns (response, st', Examples.healthyDisk)
    ∧ scheduledDelay st' = Some 100%Z.
Proof.
  destruct (proj1 (@idle_timer_is_armed_with_current_delay Examples.unlimited)
              (Examples.debouncedStore ∅ idle) Examples.healthyDisk
              (ExponentialBackoff.make 100 800) idle
              (StoreRequest.mk STORE "a" "1")
              eq_refl eq_refl (or_introl eq_refl))
    as (response & st' & E & Hd & _).
  by exists response, st'.
Defined.

Lemma synchronous_mode_saves_before_responding_witness :
  exists ok st' fs',
    @processRequest Examples.unlimited
      (Some (StoreRequest.mk STORE "a" "1"))
      (Examples.synchronousStore ∅) Examples.healthyDisk
    = Returns (StoreResponse.mk true "a" "", st', fs')
    ∧ ok = true
    ∧ file fs' = Some "10a101".
Proof.
  assert (Hd : @serialize Examples.unlimited
                 (snd (dispatch (StoreRequest.mk STORE "a" "1")
                         (database_ (Examples.synchronousStore ∅))))
               = Some "10a101") by (vm_compute; reflexivity).
  destruct (proj2 (@synchronous_mode_saves_before_responding Examples.unlimited)
              (Examples.synchronousStore ∅) Examples.healthyDisk
              (StoreRequest.mk STORE "a" "1") "10a101"
              eq_refl (or_introl eq_refl) Hd)
    as (ok & st' & fs' & _ & E & _ & _ & _ & Hok & _).
  exists ok, st', fs'. split; [exact E|]. exact (Hok eq_refl).
Defined.

Lemma store_load_erase_scenario_witness :
  saveBlockReturns Examples.unlimited (Examples.synchronousStore ∅)
  ∧ database_ (Examples.synchronousStore ∅) = StoreDatabase.empty
  ∧ exists st' fs',
      @processRequests Examples.unlimited
        [Some (StoreRequest.mk STORE "a" "1"); Some (StoreRequest.mk LOAD "a" "");
         Some (StoreRequest.mk ERASE "a" ""); Some (StoreRequest.mk LOAD "a" "")]
        (Examples.synchronousStore ∅) Examples.healthyDisk
      = Returns
          ([StoreResponse.mk true "a" ""; StoreResponse.mk true "a" "1";
            StoreResponse.mk true "a" ""; StoreResponse.mk false "a" ""],
           st', fs').
Proof.
  split; [left; exact unlimited_neverRaises|]. split; [reflexivity|].
  exact (proj1 (@store_load_erase_scenario Examples.unlimited
                  (Examples.synchronousStore ∅) Examples.healthyDisk
                  (or_introl unlimited_neverRaises) eq_refl)
           "" "" "").
Defined.

Lemma erase_succeeds_iff_present_witness :
  saveBlockReturns Examples.unlimited (Examples.synchronousStore {[ "a" := "1" ]})
  ∧ exists response st' fs',
      @processRequest Examples.unlimited
        (Some (StoreRequest.mk ERASE "a" ""))
        (Examples.synchronousStore {[ "a" := "1" ]}) Examples.healthyDisk
      = Returns (response, st', fs')
      ∧ StoreResponse.key response = "a"
      ∧ StoreResponse.success response = true.
Proof.
  split; [left; exact unlimited_neverRaises|].
  destruct (@erase_succeeds_iff_present Examples.unlimited
              (Examples.synchronousStore {[ "a" := "1" ]}) Examples.healthyDisk
              "a" "" (or_introl unlimited_neverRaises))
    as (response & st' & fs' & E & Hk & Hin & _).
  exists response, st', fs'. split; [exact E|]. split; [exact Hk|].
  apply Hin. exists "1". vm_compute. reflexivity.
Defined.

Lemma save_then_load_restores_image_witness :
  neverRaises Examples.unlimited
  ∧ roundTrips Examples.unlimited
  ∧ exists responses st fs1,
      @processRequests Examples.unlimited
        (storeRequests [("a", "1"); ("b", "2"); ("a", "3")])
        (Examples.synchronousStore ∅) Examples.healthyDisk
      = Returns (responses, st, fs1)
      ∧ exists st' fs',
          @saveDatabaseToDisk Examples.unlimited st Examples.healthyDisk
          = Returns (true, st', fs')
          ∧ @loadDatabaseFromDisk Examples.unlimited
              (Examples.synchronousStore ∅) fs'
            = (true, set_database (database_ st) (Examples.synchronousStore ∅)).
Proof.
  split; [exact unlimited_neverRaises|]. split; [exact unlimited_roundTrips|].
  destruct (@save_then_load_restores_image Examples.unlimited
              unlimited_neverRaises unlimited_roundTrips
              [("a", "1"); ("b", "2"); ("a", "3")]
              (Examples.synchronousStore ∅) Examples.healthyDisk eq_refl)
    as (responses & st & fs1 & E & Hround).
  exists responses, st, fs1. split; [exact E|].
  destruct (Hround Examples.healthyDisk (Examples.synchronousStore ∅)
              eq_refl eq_refl eq_refl)
    as (st' & fs' & Esave & Eload & _).
  by exists st', fs'.
Defined.

Lemma load_failure_leaves_image_witness :
  readFile Examples.garbageDisk = Some "garbage"
  ∧ @deserialize Examples.unlimited "garbage" = None
  ∧ @loadDatabaseFromDisk Examples.unlimited
      (Examples.synchronousStore {[ "a" := "1" ]}) Examples.garbageDisk
    = (false, Examples.synchronousStore {[ "a" := "1" ]})
  ∧ exists st0,
      @make Examples.unlimited true 100 800 Examples.garbageDisk = Returns st0
      ∧ database_ st0 = StoreDatabase.empty.
Proof.
  assert (Hd : @deserialize Examples.unlimited "garbage" = None)
    by (vm_compute; reflexivity).
  pose proof (@load_failure_leaves_image Examples.unlimited
                (Examples.synchronousStore {[ "a" := "1" ]}) Examples.garbageDisk)
    as (_ & _ & Hgarbage & _ & _ & Hstart).
  pose proof (Hgarbage "garbage" eq_refl Hd) as Eload.
  split; [reflexivity|]. split; [exact Hd|]. split; [exact Eload|].
  apply Hstart. by rewrite Eload.
Defined.

(** * Further properties of the code *)

(** ** One request, case by case *)

Section Requests.
Context `{S : Serializer}.

Lemma successfulMutation_iff request db :
  StoreResponse.success (fst (dispatch request db))
  && negb (isLOAD (StoreRequest.requestType request)) = true
  <-> successfulMutation request db.
Proof.
  split; [|apply successfulMutation_enters].
  destruct request as [[| | |tag] k d]; unfold successfulMutation.
  - by left.
  - simpl. rewrite andb_false_r. discriminate.
  - rewrite dispatch_ERASE; simpl. rewrite andb_true_r.
    intros Hin%bool_decide_eq_true. by right.
  - simpl. discriminate.
Qed.

(** A request that does not enter the save block leaves the image alone. *)
Lemma dispatch_keeps_image request db :
  ¬ successfulMutation request db -> snd (dispatch request db) = db.
Proof.
  intros Hno. destruct request as [[| | |tag] k d].
  - destruct Hno. by left.
  - by rewrite dispatch_LOAD.
  - rewrite dispatch_ERASE; simpl.
    destruct (StoreDatabase.keyVals db !! k) as [v|] eqn:E.
    + destruct Hno. right. split; [reflexivity|]. simpl. rewrite E. by exists v.
    + rewrite delete_id by done. by destruct db.
  - reflexivity.
Qed.

Lemma dispatch_key request db :
  StoreResponse.key (fst (dispatch request db)) = StoreRequest.key request.
Proof.
  destruct request as [[| | |tag] k d]; unfold dispatch; simpl; try done.
  by destruct (StoreDatabase.keyVals db !! k).
Qed.

Lemma successfulMutation_dec request db :
  successfulMutation request db ∨ ¬ successfulMutation request db.
Proof.
  destruct (StoreResponse.success (fst (dispatch request db))
            && negb (isLOAD (StoreRequest.requestType request))) eqn:E.
  - left. by apply successfulMutation_iff.
  - right. intros Hm%successfulMutation_iff. congruence.
Qed.

(** A request that is no successful mutation changes neither the store nor
    the file system. *)
Lemma processRequest_no_mutation request st fs :
  ¬ successfulMutation request (database_ st) ->
  processRequest (Some request) st fs
  = Returns (fst (dispatch request (database_ st)), st, fs).
Proof.
  intros Hno. pose proof (dispatch_keeps_image _ _ Hno) as Hdb.
  assert (Hc : StoreResponse.success (fst (dispatch request (database_ st)))
               && negb (isLOAD (StoreRequest.requestType request)) = false).
  { apply not_true_is_false. intros Hc%successfulMutation_iff. by apply Hno. }
  unfold processRequest.
  destruct (dispatch request (database_ st)) as [response db]; simpl in *.
  rewrite Hc, Hdb. by rewrite set_database_same.
Qed.

(** With a backoff a request never reaches the disk: it returns, the file
    system and the write counter are as they were, and after a successful
    mutation the timer is scheduled. *)
Lemma processRequest_debounced request st fs :
  is_Some (saveTimer st) ->
  exists response st',
    processRequest request st fs = Returns (response, st', fs)
    ∧ StoreResponse.key response = echoedKey request
    ∧ numOfWritesToDisk_ st' = numOfWritesToDisk_ st
    ∧ is_Some (saveTimer st')
    ∧ (st' = st ∨ is_Some (scheduledDelay st')).
Proof.
  intros [[backoff timer] Et]. destruct request as [request|].
  - destruct (successfulMutation_dec request (database_ st)) as [Hm|Hno].
    + rewrite (processRequest_mutation _ _ _ Hm).
      unfold scheduleSave; simpl. rewrite Et.
      destruct (isScheduled timer) eqn:Esched; simpl; eexists _, _;
        (split; [reflexivity|]); (split; [apply dispatch_key|]);
        (split; [reflexivity|]); (split; [simpl; eauto|]); right;
        unfold scheduledDelay; simpl; [rewrite Et; simpl|eauto].
      unfold isScheduled in Esched. destruct (pending timer); [eauto|discriminate].
    + rewrite (processRequest_no_mutation _ _ _ Hno).
      eexists _, _. split; [reflexivity|]. split; [apply dispatch_key|].
      split; [reflexivity|]. rewrite Et. eauto.
  - exists StoreResponse.default, st. rewrite Et. eauto 10.
Qed.

(** Without a backoff a request asks for one write when it is a successful
    mutation, and for none otherwise. *)
Lemma processRequest_synchronous (Hs : neverRaises S) request st fs :
  saveTimer st = None ->
  exists response st' fs',
    processRequest request st fs = Returns (response, st', fs')
    ∧ StoreResponse.key response = echoedKey request
    ∧ saveTimer st' = None
    ∧ ((st' = st ∧ fs' = fs)
       ∨ (exists fileData,
            serialize (database_ st') = Some fileData
            ∧ match writeFault fs with
              | None =>
                  fs' = written fileData fs
                  ∧ numOfWritesToDisk_ st' = N.succ (numOfWritesToDisk_ st)
              | Some _ =>
                  fs' = refused fs
                  ∧ numOfWritesToDisk_ st' = numOfWritesToDisk_ st
              end)).
Proof.
  intros Et. destruct request as [request|].
  - destruct (successfulMutation_dec request (database_ st)) as [Hm|Hno].
    + rewrite (processRequest_mutation _ _ _ Hm).
      unfold scheduleSave; simpl. rewrite Et.
      destruct (Hs (snd (dispatch request (database_ st)))) as [fileData Hd].
      rewrite (saveDatabaseToDisk_encoded
                 (set_database (snd (dispatch request (database_ st))) st)
                 fs fileData Hd).
      destruct (writeFault fs) as [e|]; simpl; eexists _, _, _;
        (split; [reflexivity|]); (split; [apply dispatch_key|]);
        (split; [exact Et|]); right; exists fileData; by split.
    + rewrite (processRequest_no_mutation _ _ _ Hno).
      eexists _, _, _. split; [reflexivity|]. split; [apply dispatch_key|].
      split; [exact Et|]. by left.
  - exists StoreResponse.default, st, fs. by repeat split; [..|left].
Qed.

(** The firing of the timer, case by case. *)
Lemma saveDbTimerExpired_cases (Hs : neverRaises S) st fs :
  exists st' fs',
    saveDbTimerExpired st fs = Returns (st', fs')
    ∧ database_ st' = database_ st
    ∧ (is_Some (saveTimer st) <-> is_Some (saveTimer st'))
    ∧ ((st' = st ∧ fs' = fs ∧ scheduledDelay st = None)
       ∨ (exists fileData,
            is_Some (scheduledDelay st)
            ∧ serialize (database_ st) = Some fileData
            ∧ match writeFault fs with
              | None =>
                  fs' = written fileData fs
                  ∧ numOfWritesToDisk_ st' = N.succ (numOfWritesToDisk_ st)
                  ∧ scheduledDelay st' = None
              | Some _ =>
                  fs' = refused fs
                  ∧ numOfWritesToDisk_ st' = numOfWritesToDisk_ st
                  ∧ is_Some (scheduledDelay st')
              end)).
Proof.
  unfold saveDbTimerExpired, scheduledDelay.
  destruct (saveTimer st) as [[backoff timer]|] eqn:Et; simpl.
  - unfold isScheduled. destruct (pending timer) as [delay|] eqn:Ep.
    + destruct (Hs (database_ st)) as [fileData Hd].
      rewrite (saveDbTimerCallback_encoded
                 (set_saveTimer (mkSaveTimer backoff idle) st) fs
                 backoff idle fileData eq_refl Hd).
      destruct (writeFault fs) as [e|]; simpl; eexists _, _;
        (split; [reflexivity|]); (split; [reflexivity|]);
        (split; [simpl; split; eauto|]); right; exists fileData;
        (split; [eauto|]); (split; [exact Hd|]); simpl; eauto.
    + exists st, fs. rewrite Et. simpl. rewrite Ep. split; [reflexivity|].
      split; [reflexivity|]. split; [done|]. by left.
  - exists st, fs. rewrite Et. split; [reflexivity|]. split; [reflexivity|].
    split; [done|]. by left.
Qed.

End Requests.

(** ** Runs of the event loop *)

Section Runs.
Context `{S : Serializer}.

Lemma run_cons e rest st fs responses1 st1 fs1 responses2 st2 fs2 :
  step e st fs = Returns (responses1, st1, fs1) ->
  run rest st1 fs1 = Returns (responses2, st2, fs2) ->
  run (e :: rest) st fs = Returns (responses1 ++ responses2, st2, fs2).
Proof. intros E1 E2. simpl. rewrite E1. simpl. rewrite E2. reflexivity. Qed.

Lemma writeBudget_mode st st' events :
  (is_Some (saveTimer st) <-> is_Some (saveTimer st')) ->
  writeBudget st' events = writeBudget st events.
Proof.
  unfold writeBudget. intros Hmode.
  destruct (saveTimer st) as [s|], (saveTimer st') as [s'|]; try reflexivity.
  - destruct (proj1 Hmode) as [? ?]; [eauto|discriminate].
  - destruct (proj2 Hmode) as [? ?]; [eauto|discriminate].
Qed.

Lemma writeBudget_cons st e rest :
  writeBudget st (e :: rest) = (writeBudget st [e] + writeBudget st rest)%nat.
Proof. unfold writeBudget. destruct (saveTimer st); simpl; lia. Qed.

(** What one event does to the counters and what it answers. *)
Lemma step_accounting (Hs : neverRaises S) e st fs :
  exists responses st' fs',
    step e st fs = Returns (responses, st', fs')
    ∧ (is_Some (saveTimer st) <-> is_Some (saveTimer st'))
    ∧ (numOfWritesToDisk_ st <= numOfWritesToDisk_ st')%N
    ∧ (numOfWritesToDisk_ st' + writeCalls fs
       <= numOfWritesToDisk_ st + writeCalls fs')%N
    ∧ (writeCalls fs' <= writeCalls fs + N.of_nat (writeBudget st [e]))%N
    ∧ map StoreResponse.key responses = map echoedKey (requestsOf [e]).
Proof.
  destruct e as [request| |fault]; simpl.
  - destruct (saveTimer st) as [s|] eqn:Et.
    + destruct (processRequest_debounced request st fs) as
        (response & st' & E & Hk & Hn & Ht & _); [by rewrite Et|].
      rewrite E. simpl. eexists _, _, _. split; [reflexivity|].
      split; [split; intros _; [exact Ht|eauto]|]. rewrite Hn.
      split; [lia|]. split; [lia|]. split; [lia|]. simpl. by rewrite Hk.
    + destruct (processRequest_synchronous Hs request st fs Et) as
        (response & st' & fs' & E & Hk & Ht & Hcase).
      rewrite E. simpl. eexists _, _, _. split; [reflexivity|].
      split; [by rewrite Ht|].
      assert (Hkeys : map StoreResponse.key [response]
                      = map echoedKey (requestsOf [Request request]))
        by (simpl; by rewrite Hk).
      unfold writeBudget. rewrite Et. simpl countEvents.
      destruct Hcase as [[-> ->]|(fileData & _ & Hw)];
        [split; [lia|]; split; [lia|]; split; [lia|exact Hkeys]|].
      destruct (writeFault fs); destruct Hw as [-> ->]; simpl writeCalls;
        (split; [lia|]; split; [lia|]; split; [lia|exact Hkeys]).
  - destruct (saveDbTimerExpired_cases Hs st fs) as
      (st' & fs' & E & _ & Ht & Hcase).
    rewrite E. simpl. eexists _, _, _. split; [reflexivity|].
    split; [exact Ht|].
    destruct Hcase as [(-> & -> & _)|(fileData & Hsched & _ & Hw)];
      [split; [lia|]; split; [lia|]; split; [lia|reflexivity]|].
    assert (Hb : writeBudget st [TimerExpired] = 1%nat).
    { unfold writeBudget, scheduledDelay in *.
      destruct (saveTimer st); [reflexivity|]. by destruct Hsched. }
    rewrite Hb.
    destruct (writeFault fs); destruct Hw as (-> & -> & _); simpl writeCalls;
      (split; [lia|]; split; [lia|]; split; [lia|reflexivity]).
  - eexists _, _, _. split; [reflexivity|]. split; [done|]. simpl writeCalls.
    split; [lia|]; split; [lia|]; split; [lia|reflexivity].
Qed.

Lemma run_accounting (Hs : neverRaises S) events st fs :
  exists responses st' fs',
    run events st fs = Returns (responses, st', fs')
    ∧ (is_Some (saveTimer st) <-> is_Some (saveTimer st'))
    ∧ (numOfWritesToDisk_ st <= numOfWritesToDisk_ st')%N
    ∧ (numOfWritesToDisk_ st' + writeCalls fs
       <= numOfWritesToDisk_ st + writeCalls fs')%N
    ∧ (writeCalls fs' <= writeCalls fs + N.of_nat (writeBudget st events))%N
    ∧ map StoreResponse.key responses = map echoedKey (requestsOf events).
Proof.
  revert st fs. induction events as [|e rest IH]; intros st fs.
  - exists [], st, fs. split; [reflexivity|]. split; [done|].
    replace (writeBudget st []) with 0%nat
      by (unfold writeBudget; by destruct (saveTimer st)).
    split; [lia|]. split; [lia|]. split; [lia|reflexivity].
  - destruct (step_accounting Hs e st fs)
      as (r1 & st1 & fs1 & E1 & Ht1 & Hn1 & Hc1 & Hb1 & Hk1).
    destruct (IH st1 fs1)
      as (r2 & st2 & fs2 & E2 & Ht2 & Hn2 & Hc2 & Hb2 & Hk2).
    exists (r1 ++ r2), st2, fs2.
    split; [exact (run_cons _ _ _ _ _ _ _ _ _ _ E1 E2)|].
    split; [by rewrite Ht1|].
    rewrite (writeBudget_mode st st1 rest Ht1) in Hb2.
    rewrite (writeBudget_cons st e rest).
    split; [lia|]. split; [lia|]. split; [lia|].
    rewrite map_app, Hk1, Hk2.
    destruct e; reflexivity.
Qed.

(** With a backoff, one event keeps the image covered. *)
Lemma step_covered (Hs : neverRaises S) e st fs :
  is_Some (saveTimer st) ->
  covered st fs ->
  exists responses st' fs',
    step e st fs = Returns (responses, st', fs')
    ∧ is_Some (saveTimer st')
    ∧ covered st' fs'.
Proof.
  intros Ht Hc. destruct e as [request| |fault]; simpl.
  - destruct (processRequest_debounced request st fs Ht) as
      (response & st' & E & _ & _ & Ht' & Hcase).
    rewrite E. simpl. eexists _, _, _. split; [reflexivity|].
    split; [exact Ht'|]. destruct Hcase as [->|Hsched]; [exact Hc|by left].
  - destruct (saveDbTimerExpired_cases Hs st fs) as
      (st' & fs' & E & Hdb & Ht' & Hcase).
    rewrite E. simpl. eexists _, _, _. split; [reflexivity|].
    split; [by apply Ht'|].
    destruct Hcase as [(-> & -> & _)|(fileData & _ & Hd & Hw)]; [exact Hc|].
    destruct (writeFault fs); [left; apply Hw|].
    destruct Hw as (-> & _ & _). right. exists fileData. by rewrite Hdb.
  - eexists _, _, _. split; [reflexivity|]. split; [exact Ht|].
    destruct Hc as [Hc|(fileData & Hd & Hf)]; [by left|].
    right. by exists fileData.
Qed.

Lemma run_covered (Hs : neverRaises S) events st fs :
  is_Some (saveTimer st) ->
  covered st fs ->
  exists responses st' fs',
    run events st fs = Returns (responses, st', fs')
    ∧ is_Some (saveTimer st')
    ∧ covered st' fs'.
Proof.
  revert st fs. induction events as [|e rest IH]; intros st fs Ht Hc.
  - by exists [], st, fs.
  - destruct (step_covered Hs e st fs Ht Hc) as (r1 & st1 & fs1 & E1 & Ht1 & Hc1).
    destruct (IH st1 fs1 Ht1 Hc1) as (r2 & st2 & fs2 & E2 & Ht2 & Hc2).
    exists (r1 ++ r2), st2, fs2.
    split; [exact (run_cons _ _ _ _ _ _ _ _ _ _ E1 E2)|]. done.
Qed.

(** Without a backoff and on a disk that takes every write, requests keep the
    file in step with the image. *)
Lemma processRequests_durable (Hs : neverRaises S) requests st fs :
  saveTimer st = None ->
  writeFault fs = None ->
  durable st fs ->
  exists responses st' fs',
    processRequests requests st fs = Returns (responses, st', fs')
    ∧ saveTimer st' = None
    ∧ writeFault fs' = None
    ∧ durable st' fs'.
Proof.
  revert st fs. induction requests as [|request rest IH]; intros st fs Ht Hw Hd.
  - by exists [], st, fs.
  - destruct (processRequest_synchronous Hs request st fs Ht) as
      (response & st1 & fs1 & E1 & _ & Ht1 & Hcase).
    assert (Hw1 : writeFault fs1 = None ∧ durable st1 fs1).
    { destruct Hcase as [[-> ->]|(fileData & Hd1 & Hwr)]; [done|].
      rewrite Hw in Hwr. destruct Hwr as [-> _]. split; [exact Hw|].
      by exists fileData. }
    destruct (IH st1 fs1 Ht1 (proj1 Hw1) (proj2 Hw1))
      as (responses & st2 & fs2 & E2 & Hrest).
    exists (response :: responses), st2, fs2.
    split; [exact (processRequests_cons _ _ _ _ _ _ _ _ _ _ E1 E2)|]. exact Hrest.
Qed.

End Runs.

(** ** The switch, key by key *)

Section Keys.
Context `{S : Serializer}.

Lemma StoreDatabase_eq (db1 db2 : StoreDatabase.t) :
  StoreDatabase.keyVals db1 = StoreDatabase.keyVals db2 -> db1 = db2.
Proof. destruct db1, db2; simpl. by intros ->. Qed.

(** A request touches the binding of its own key and no other. *)
Lemma dispatch_lookup request db j :
  StoreDatabase.keyVals (snd (dispatch request db)) !! j
  = if decide (j = StoreRequest.key request)
    then effect request (StoreDatabase.keyVals db !! j)
    else StoreDatabase.keyVals db !! j.
Proof.
  destruct request as [[| | |tag] k d]; unfold effect;
    rewrite ?dispatch_LOAD, ?dispatch_ERASE, ?dispatch_STORE; simpl.
  - destruct (decide (j = k)) as [->|Hne];
      [apply lookup_insert_eq|by apply lookup_insert_ne].
  - by destruct (decide (j = k)).
  - destruct (decide (j = k)) as [->|Hne];
      [apply lookup_delete_eq|by apply lookup_delete_ne].
  - by destruct (decide (j = k)).
Qed.

(** The response to a request depends on the binding of its key only. *)
Lemma dispatch_response request db db' :
  StoreDatabase.keyVals db !! StoreRequest.key request
  = StoreDatabase.keyVals db' !! StoreRequest.key request ->
  fst (dispatch request db) = fst (dispatch request db').
Proof.
  destruct request as [[| | |tag] k d]; simpl; intros Hk;
    rewrite ?dispatch_LOAD, ?dispatch_ERASE, ?dispatch_STORE; simpl;
    try reflexivity; by rewrite Hk.
Qed.

Lemma dispatch_commute r1 r2 db :
  StoreRequest.key r1 ≠ StoreRequest.key r2 ->
  snd (dispatch r2 (snd (dispatch r1 db)))
  = snd (dispatch r1 (snd (dispatch r2 db)))
  ∧ fst (dispatch r2 (snd (dispatch r1 db))) = fst (dispatch r2 db)
  ∧ fst (dispatch r1 (snd (dispatch r2 db))) = fst (dispatch r1 db).
Proof.
  intros Hne. split; [|split].
  - apply StoreDatabase_eq, map_eq. intros j. rewrite !dispatch_lookup.
    destruct (decide (j = StoreRequest.key r1)) as [E1|H1];
      destruct (decide (j = StoreRequest.key r2)) as [E2|H2];
      try reflexivity.
    destruct Hne. congruence.
  - apply dispatch_response. rewrite dispatch_lookup.
    by destruct (decide (StoreRequest.key r2 = StoreRequest.key r1)) as [E|_];
      [destruct Hne|].
  - apply dispatch_response. rewrite dispatch_lookup.
    by destruct (decide (StoreRequest.key r1 = StoreRequest.key r2)) as [E|_];
      [destruct Hne|].
Qed.

Lemma list_to_map_snoc_union (l : list (string * string)) k v
    (m : gmap string string) :
  list_to_map (l ++ [(k, v)]) ∪ m = list_to_map l ∪ <[k := v]> m.
Proof.
  rewrite list_to_map_app, <- (assoc_L (∪)). f_equal.
  simpl. by rewrite insert_empty, <- insert_union_singleton_l.
Qed.

(** The image after a run of STORE requests, and what the run answers. *)
Lemma processRequests_stores kvs st fs :
  saveBlockReturns S st ->
  exists st' fs',
    processRequests (storeRequests kvs) st fs
    = Returns (map (fun kv => StoreResponse.mk true (fst kv) "") kvs, st', fs')
    ∧ StoreDatabase.keyVals (database_ st')
      = list_to_map (reverse kvs) ∪ StoreDatabase.keyVals (database_ st)
    ∧ saveBlockReturns S st'.
Proof.
  revert st fs. induction kvs as [|[k v] rest IH]; intros st fs Hs.
  - exists st, fs. split; [reflexivity|]. split; [|exact Hs].
    rewrite reverse_nil. simpl. by rewrite (left_id_L ∅ (∪)).
  - destruct (processRequest_decoded (StoreRequest.mk STORE k v) st fs Hs)
      as (st1 & fs1 & E1 & Hdb1 & Hs1).
    rewrite dispatch_STORE in E1, Hdb1; cbn [fst snd] in E1, Hdb1.
    destruct (IH st1 fs1 Hs1) as (st2 & fs2 & E2 & Hdb2 & Hs2).
    exists st2, fs2.
    split; [exact (processRequests_cons _ _ _ _ _ _ _ _ _ _ E1 E2)|].
    split; [|exact Hs2].
    rewrite Hdb2, Hdb1; simpl. by rewrite reverse_cons, list_to_map_snoc_union.
Qed.

End Keys.

(** ** Properties of the request handler *)

(** X1: the responses to a run of events are one per message read from the
    socket, in the order of the messages, each carrying the key of its
    request, or the empty key when the message could not be decoded; the
    firing of the timer answers nothing. *)
Theorem responses_follow_requests `{S : Serializer}
    (Hs : neverRaises S) (events : list Event) (st : t) (fs : FileSystem) :
  exists responses st' fs',
    run events st fs = Returns (responses, st', fs')
    ∧ map StoreResponse.key responses = map echoedKey (requestsOf events)
    ∧ length responses = length (requestsOf events).
Proof.
  destruct (run_accounting Hs events st fs)
    as (responses & st' & fs' & E & _ & _ & _ & _ & Hk).
  exists responses, st', fs'. split; [exact E|]. split; [exact Hk|].
  by rewrite <- (length_map StoreResponse.key), Hk, length_map.
Qed.

(** X2: STORE requests are all answered with success, and afterwards the
    image binds every key stored to the value of its last STORE and keeps the
    other bindings it had; a LOAD then answers accordingly. *)
Theorem load_answers_last_stored_value `{S : Serializer}
    (kvs : list (string * string)) (st : t) (fs : FileSystem)
    (Hs : saveBlockReturns S st) :
  exists st' fs',
    processRequests (storeRequests kvs) st fs
    = Returns (map (fun kv => StoreResponse.mk true (fst kv) "") kvs, st', fs')
    ∧ StoreDatabase.keyVals (database_ st')
      = list_to_map (reverse kvs) ∪ StoreDatabase.keyVals (database_ st)
    ∧ forall k d,
        processRequest (Some (StoreRequest.mk LOAD k d)) st' fs'
        = Returns
            (match (list_to_map (reverse kvs)
                    ∪ StoreDatabase.keyVals (database_ st)) !! k with
             | Some v => StoreResponse.mk true k v
             | None => StoreResponse.mk false k ""
             end, st', fs').
Proof.
  destruct (processRequests_stores kvs st fs Hs) as (st' & fs' & E & Hdb & _).
  exists st', fs'. split; [exact E|]. split; [exact Hdb|].
  intros k d. by rewrite processRequest_LOAD, Hdb.
Qed.

(** X3: two requests on different keys can be handled in either order: each
    gets the same response in both orders, and the image at the end is the
    same. *)
Theorem requests_on_different_keys_commute `{S : Serializer}
    (r1 r2 : StoreRequest.t) (st : t) (fs : FileSystem)
    (Hs : saveBlockReturns S st)
    (Hkeys : StoreRequest.key r1 ≠ StoreRequest.key r2) :
  exists response1 response2 st12 fs12 st21 fs21,
    processRequests [Some r1; Some r2] st fs
    = Returns ([response1; response2], st12, fs12)
    ∧ processRequests [Some r2; Some r1] st fs
      = Returns ([response2; response1], st21, fs21)
    ∧ database_ st12 = database_ st21.
Proof.
  destruct (dispatch_commute r1 r2 (database_ st) Hkeys) as (Hdb & H2 & H1).
  destruct (processRequest_decoded r1 st fs Hs) as (sa & fa & Ea & Hda & Hsa).
  destruct (processRequest_decoded r2 sa fa Hsa) as (sb & fb & Eb & Hdb' & _).
  destruct (processRequest_decoded r2 st fs Hs) as (sc & fc & Ec & Hdc & Hsc).
  destruct (processRequest_decoded r1 sc fc Hsc) as (sd & fd & Ed & Hdd & _).
  rewrite Hda in Eb, Hdb'. rewrite Hdc in Ed, Hdd. rewrite H2 in Eb. rewrite H1 in Ed.
  exists (fst (dispatch r1 (database_ st))), (fst (dispatch r2 (database_ st))),
    sb, fb, sd, fd.
  split; [|split].
  - eapply processRequests_cons; [exact Ea|].
    eapply processRequests_cons; [exact Eb|reflexivity].
  - eapply processRequests_cons; [exact Ec|].
    eapply processRequests_cons; [exact Ed|reflexivity].
  - by rewrite Hdb', Hdd.
Qed.

(** ** Properties of the persistence discipline *)

(** X4: with a backoff configured, once a successful mutation has been
    answered, then after any further requests, firings of the timer and
    changes of the disk, a flush is pending or the file holds the encoding of
    the image the store has at that moment. *)
Theorem acknowledged_mutation_stays_covered `{S : Serializer}
    (Hs : neverRaises S) (request : StoreRequest.t) (events : list Event)
    (st : t) (fs : FileSystem)
    (Hbackoff : is_Some (saveTimer st))
    (Hmutation : successfulMutation request (database_ st)) :
  exists responses st' fs',
    run (Request (Some request) :: events) st fs = Returns (responses, st', fs')
    ∧ covered st' fs'.
Proof.
  destruct Hbackoff as [[backoff timer] Et].
  assert (E1 : exists st1,
             step (Request (Some request)) st fs
             = Returns ([fst (dispatch request (database_ st))], st1, fs)
             ∧ is_Some (saveTimer st1) ∧ is_Some (scheduledDelay st1)).
  { unfold step. rewrite (processRequest_mutation _ _ _ Hmutation).
    unfold scheduleSave, scheduledDelay; simpl. rewrite Et.
    destruct (isScheduled timer) eqn:Esched; simpl; eexists;
      (split; [reflexivity|]); simpl; [rewrite Et; simpl|eauto].
    unfold isScheduled in Esched. destruct (pending timer); eauto. discriminate. }
  destruct E1 as (st1 & E1 & Ht1 & Hsched).
  destruct (run_covered Hs events st1 fs Ht1 (or_introl Hsched))
    as (responses & st' & fs' & E2 & _ & Hc).
  eexists _, st', fs'. split; [exact (run_cons _ _ _ _ _ _ _ _ _ _ E1 E2)|exact Hc].
Qed.

(** X5: without a backoff, on a disk that takes every write, once a
    successful mutation has been answered the file holds the encoding of the
    current image, and it still does after any further requests. *)
Theorem synchronous_file_follows_image `{S : Serializer}
    (Hs : neverRaises S) (request : StoreRequest.t)
    (rest : list (option StoreRequest.t)) (st : t) (fs : FileSystem)
    (Hsync : saveTimer st = None)
    (Hdisk : writeFault fs = None)
    (Hmutation : successfulMutation request (database_ st)) :
  exists responses st' fs',
    processRequests (Some request :: rest) st fs = Returns (responses, st', fs')
    ∧ durable st' fs'.
Proof.
  destruct (Hs (snd (dispatch request (database_ st)))) as [fileData Hd].
  assert (E1 : processRequest (Some request) st fs
               = Returns (fst (dispatch request (database_ st)),
                          count_write
                            (set_database (snd (dispatch request (database_ st))) st),
                          written fileData fs)).
  { rewrite (processRequest_mutation _ _ _ Hmutation).
    unfold scheduleSave; simpl. rewrite Hsync.
    rewrite (saveDatabaseToDisk_encoded
               (set_database (snd (dispatch request (database_ st))) st)
               fs fileData Hd), Hdisk. reflexivity. }
  set (st1 := count_write
                (set_database (snd (dispatch request (database_ st))) st)) in *.
  assert (Hdur1 : durable st1 (written fileData fs)) by (by exists fileData).
  destruct (processRequests_durable Hs rest st1 (written fileData fs)
              Hsync Hdisk Hdur1)
    as (responses & st' & fs' & E2 & _ & _ & Hdur).
  eexists _, st', fs'.
  split; [exact (processRequests_cons _ _ _ _ _ _ _ _ _ _ E1 E2)|exact Hdur].
Qed.


(** ** Counting the writes *)

Section Counting.
Context `{S : Serializer}.

Lemma step_exact (Hs : neverRaises S) e st fs :
  writeFault fs = None ->
  keepsDiskWritable e ->
  exists responses st' fs',
    step e st fs = Returns (responses, st', fs')
    ∧ writeFault fs' = None
    ∧ (numOfWritesToDisk_ st' + writeCalls fs
       = numOfWritesToDisk_ st + writeCalls fs')%N.
Proof.
  intros Hw Hquiet. destruct e as [request| |[err|]]; simpl; [| | |].
  - destruct (saveTimer st) as [s|] eqn:Et.
    + destruct (processRequest_debounced request st fs) as
        (response & st' & E & _ & Hn & _ & _); [by rewrite Et|].
      rewrite E. simpl. eexists _, _, _. split; [reflexivity|].
      split; [exact Hw|]. by rewrite Hn.
    + destruct (processRequest_synchronous Hs request st fs Et) as
        (response & st' & fs' & E & _ & _ & Hcase).
      rewrite E. simpl. eexists _, _, _. split; [reflexivity|].
      destruct Hcase as [[-> ->]|(fileData & _ & Hwr)]; [done|].
      rewrite Hw in Hwr. destruct Hwr as [-> ->]. simpl. split; [exact Hw|lia].
  - destruct (saveDbTimerExpired_cases Hs st fs) as
      (st' & fs' & E & _ & _ & Hcase).
    rewrite E. simpl. eexists _, _, _. split; [reflexivity|].
    destruct Hcase as [(-> & -> & _)|(fileData & _ & _ & Hwr)]; [done|].
    rewrite Hw in Hwr. destruct Hwr as (-> & -> & _). simpl.
    split; [exact Hw|lia].
  - destruct Hquiet.
  - eexists _, _, _. split; [reflexivity|]. by split.
Qed.

Lemma run_exact (Hs : neverRaises S) events st fs :
  writeFault fs = None ->
  Forall keepsDiskWritable events ->
  exists responses st' fs',
    run events st fs = Returns (responses, st', fs')
    ∧ writeFault fs' = None
    ∧ (numOfWritesToDisk_ st' + writeCalls fs
       = numOfWritesToDisk_ st + writeCalls fs')%N.
Proof.
  intros Hw Hquiet. revert st fs Hw.
  induction Hquiet as [|e rest He Hrest IH]; intros st fs Hw.
  - by exists [], st, fs.
  - destruct (step_exact Hs e st fs Hw He) as (r1 & st1 & fs1 & E1 & Hw1 & Hc1).
    destruct (IH st1 fs1 Hw1) as (r2 & st2 & fs2 & E2 & Hw2 & Hc2).
    exists (r1 ++ r2), st2, fs2.
    split; [exact (run_cons _ _ _ _ _ _ _ _ _ _ E1 E2)|]. split; [exact Hw2|lia].
Qed.

End Counting.

(** Below its maximum the counter of the embedding, which does not wrap, is
    incremented as the 64-bit counter of the program is. *)
Lemma count_write_within_width (st : t) :
  (numOfWritesToDisk_ st < counterMax)%N ->
  numOfWritesToDisk_ (count_write st)
  = ((numOfWritesToDisk_ st + 1) mod 2 ^ 64)%N.
Proof.
  unfold counterMax. intros Hlt. simpl.
  rewrite N.mod_small by lia. lia.
Qed.

Lemma countEvents_le (p : Event -> bool) (events : list Event) :
  (countEvents p events <= length events)%nat.
Proof.
  induction events as [|e rest IH]; simpl; [lia|]. destruct (p e); lia.
Qed.

(** X7: take a run of events during which the 64-bit write counter cannot
    wrap (it starts at least as many increments below its maximum as there are
    events).  Along the run the counter never goes down, stays within 64 bits,
    and grows by at most the number of writes of the file that were asked for;
    when the disk takes every write it grows by exactly that number. *)
Theorem write_counter_counts_writes_taken `{S : Serializer}
    (Hs : neverRaises S) (events : list Event) (st : t) (fs : FileSystem)
    (Hroom : counterHasRoom st events) :
  exists responses st' fs',
    run events st fs = Returns (responses, st', fs')
    ∧ (numOfWritesToDisk_ st <= numOfWritesToDisk_ st' <= counterMax)%N
    ∧ (numOfWritesToDisk_ st' + writeCalls fs
       <= numOfWritesToDisk_ st + writeCalls fs')%N
    ∧ (writeFault fs = None ->
       Forall keepsDiskWritable events ->
       (numOfWritesToDisk_ st' + writeCalls fs
        = numOfWritesToDisk_ st + writeCalls fs')%N).
Proof.
  destruct (run_accounting Hs events st fs)
    as (responses & st' & fs' & E & _ & Hn & Hc & Hb & _).
  exists responses, st', fs'. split; [exact E|].
  assert (Hbudget : (writeBudget st events <= length events)%nat).
  { unfold writeBudget. destruct (saveTimer st); apply countEvents_le. }
  unfold counterHasRoom in Hroom.
  split; [split; [exact Hn|lia]|].
  split; [exact Hc|]. intros Hw Hquiet.
  destruct (run_exact Hs events st fs Hw Hquiet)
    as (responses2 & st2 & fs2 & E2 & _ & Heq).
  rewrite E in E2. by injection E2 as <- <- <-.
Qed.

(** X8: with a backoff configured, a run of events asks for at most one write
    of the file for each firing of the timer, however many requests it holds;
    without a backoff it asks for at most one write for each request. *)
Theorem writes_bounded_by_firings_or_requests `{S : Serializer}
    (Hs : neverRaises S) (events : list Event) (st : t) (fs : FileSystem) :
  exists responses st' fs',
    run events st fs = Returns (responses, st', fs')
    ∧ (writeCalls fs <= writeCalls fs')%N
    ∧ (is_Some (saveTimer st) ->
       (writeCalls fs'
        <= writeCalls fs + N.of_nat (countEvents isTimerExpired events))%N)
    ∧ (saveTimer st = None ->
       (writeCalls fs'
        <= writeCalls fs + N.of_nat (countEvents isRequest events))%N).
Proof.
  destruct (run_accounting Hs events st fs)
    as (responses & st' & fs' & E & _ & Hn & Hc & Hb & _).
  exists responses, st', fs'. split; [exact E|]. split; [lia|].
  unfold writeBudget in Hb. split.
  - intros [s Et]. by rewrite Et in Hb.
  - intros Et. by rewrite Et in Hb.
Qed.

(** ** Shutdown and restart *)

(** X9: the destructor saves the image whatever the state of the timer, so a
    flush that was still pending is not lost: on a disk without fault, with a
    serializer that decodes what it encoded, the file then holds the encoded
    image, and a store constructed over it, with any delays, starts with the
    same image, a write counter of zero and an idle timer. *)
Theorem image_survives_restart `{S : Serializer}
    (Hrt : roundTrips S) (st : t) (fs : FileSystem) (fileData : string)
    (Hencoded : serialize (database_ st) = Some fileData)
    (Hwrite : writeFault fs = None) (Hread : readFault fs = None) :
  exists fs',
    destroy st fs = Returns fs'
    ∧ file fs' = Some fileData
    ∧ forall saveInitialBackoff saveMaxBackoff, exists st',
        make true saveInitialBackoff saveMaxBackoff fs' = Returns st'
        ∧ database_ st' = database_ st
        ∧ numOfWritesToDisk_ st' = 0%N
        ∧ scheduledDelay st' = None.
Proof.
  exists (written fileData fs). unfold destroy.
  rewrite (saveDatabaseToDisk_encoded st fs fileData Hencoded), Hwrite.
  split; [reflexivity|]. split; [reflexivity|].
  intros i m. unfold make, loadDatabaseFromDisk, readFile. simpl.
  rewrite Hread, (Hrt _ _ Hencoded).
  eexists. split; [reflexivity|].
  by destruct (negb (i =? 0)%Z || negb (m =? 0)%Z).
Qed.

(** ** The further properties at concrete stores *)

Lemma responses_follow_requests_witness :
  neverRaises Examples.unlimited
  ∧ exists responses st' fs',
      @run Examples.unlimited
        [Request (Some (StoreRequest.mk STORE "a" "1")); TimerExpired;
         Request None; Request (Some (StoreRequest.mk LOAD "b" ""))]
        (Examples.debouncedStore ∅ idle) Examples.healthyDisk
      = Returns (responses, st', fs')
      ∧ map StoreResponse.key responses = ["a"; ""; "b"].
Proof.
  split; [exact unlimited_neverRaises|].
  destruct (@responses_follow_requests Examples.unlimited unlimited_neverRaises
              [Request (Some (StoreRequest.mk STORE "a" "1")); TimerExpired;
               Request None; Request (Some (StoreRequest.mk LOAD "b" ""))]
              (Examples.debouncedStore ∅ idle) Examples.healthyDisk)
    as (responses & st' & fs' & E & Hk & _).
  by exists responses, st', fs'.
Defined.

Lemma load_answers_last_stored_value_witness :
  saveBlockReturns Examples.unlimited (Examples.synchronousStore ∅)
  ∧ exists st' fs',
      @processRequests Examples.unlimited
        (storeRequests [("a", "1"); ("b", "2"); ("a", "3")])
        (Examples.synchronousStore ∅) Examples.healthyDisk
      = Returns
          ([StoreResponse.mk true "a" ""; StoreResponse.mk true "b" "";
            StoreResponse.mk true "a" ""], st', fs')
      ∧ @processRequest Examples.unlimited
          (Some (StoreRequest.mk LOAD "a" "")) st' fs'
        = Returns (StoreResponse.mk true "a" "3", st', fs').
Proof.
  split; [left; exact unlimited_neverRaises|].
  destruct (@load_answers_last_stored_value Examples.unlimited
              [("a", "1"); ("b", "2"); ("a", "3")]
              (Examples.synchronousStore ∅) Examples.healthyDisk
              (or_introl unlimited_neverRaises))
    as (st' & fs' & E & _ & Hload).
  exists st', fs'. split; [exact E|].
  assert (Hlast : (list_to_map (reverse [("a", "1"); ("b", "2"); ("a", "3")])
                   ∪ StoreDatabase.keyVals
                       (database_ (Examples.synchronousStore ∅)))
                  !! "a" = Some "3") by (vm_compute; reflexivity).
  pose proof (Hload "a" "") as E2. rewrite Hlast in E2. exact E2.
Defined.

Lemma requests_on_different_keys_commute_witness :
  "a" ≠ "b"
  ∧ exists response1 response2 st12 fs12 st21 fs21,
      @processRequests Examples.unlimited
        [Some (StoreRequest.mk STORE "a" "1"); Some (StoreRequest.mk ERASE "b" "")]
        (Examples.synchronousStore {[ "b" := "2" ]}) Examples.healthyDisk
      = Returns ([response1; response2], st12, fs12)
      ∧ @processRequests Examples.unlimited
          [Some (StoreRequest.mk ERASE "b" ""); Some (StoreRequest.mk STORE "a" "1")]
          (Examples.synchronousStore {[ "b" := "2" ]}) Examples.healthyDisk
        = Returns ([response2; response1], st21, fs21)
      ∧ database_ st12 = database_ st21.
Proof.
  assert (Hne : "a" ≠ "b") by discriminate.
  split; [exact Hne|].
  exact (@requests_on_different_keys_commute Examples.unlimited
           (StoreRequest.mk STORE "a" "1") (StoreRequest.mk ERASE "b" "")
           (Examples.synchronousStore {[ "b" := "2" ]}) Examples.healthyDisk
           (or_introl unlimited_neverRaises) Hne).
Defined.

Lemma acknowledged_mutation_stays_covered_witness :
  is_Some (saveTimer (Examples.debouncedStore ∅ idle))
  ∧ exists responses st' fs',
      @run Examples.unlimited
        [Request (Some (StoreRequest.mk STORE "a" "1"));
         DiskChanged (Some EIO); TimerExpired;
         Request (Some (StoreRequest.mk STORE "b" "2"));
         DiskChanged None; TimerExpired]
        (Examples.debouncedStore ∅ idle) Examples.healthyDisk
      = Returns (responses, st', fs')
      ∧ @covered Examples.unlimited st' fs'.
Proof.
  assert (Ht : is_Some (saveTimer (Examples.debouncedStore ∅ idle)))
    by (eexists; reflexivity).
  split; [exact Ht|].
  exact (@acknowledged_mutation_stays_covered Examples.unlimited
           unlimited_neverRaises (StoreRequest.mk STORE "a" "1")
           [DiskChanged (Some EIO); TimerExpired;
            Request (Some (StoreRequest.mk STORE "b" "2"));
            DiskChanged None; TimerExpired]
           (Examples.debouncedStore ∅ idle) Examples.healthyDisk
           Ht (or_introl eq_refl)).
Defined.

Lemma synchronous_file_follows_image_witness :
  saveTimer (Examples.synchronousStore ∅) = None
  ∧ writeFault Examples.healthyDisk = None
  ∧ exists responses st' fs',
      @processRequests Examples.unlimited
        [Some (StoreRequest.mk STORE "a" "1"); Some (StoreRequest.mk LOAD "a" "");
         Some (StoreRequest.mk ERASE "b" "")]
        (Examples.synchronousStore ∅) Examples.healthyDisk
      = Returns (responses, st', fs')
      ∧ @durable Examples.unlimited st' fs'.
Proof.
  split; [reflexivity|]. split; [reflexivity|].
  exact (@synchronous_file_follows_image Examples.unlimited
           unlimited_neverRaises (StoreRequest.mk STORE "a" "1")
           [Some (StoreRequest.mk LOAD "a" ""); Some (StoreRequest.mk ERASE "b" "")]
           (Examples.synchronousStore ∅) Examples.healthyDisk
           eq_refl eq_refl (or_introl eq_refl)).
Defined.


Lemma write_counter_counts_writes_taken_witness :
  neverRaises Examples.unlimited
  ∧ counterHasRoom (Examples.synchronousStore ∅)
      [Request (Some (StoreRequest.mk STORE "a" "1"));
       Request (Some (StoreRequest.mk STORE "b" "2")); TimerExpired]
  ∧ exists responses st' fs',
      @run Examples.unlimited
        [Request (Some (StoreRequest.mk STORE "a" "1"));
         Request (Some (StoreRequest.mk STORE "b" "2")); TimerExpired]
        (Examples.synchronousStore ∅) Examples.healthyDisk
      = Returns (responses, st', fs')
      ∧ (numOfWritesToDisk_ st' + 0 = 0 + writeCalls fs')%N.
Proof.
  assert (Hroom : counterHasRoom (Examples.synchronousStore ∅)
                    [Request (Some (StoreRequest.mk STORE "a" "1"));
                     Request (Some (StoreRequest.mk STORE "b" "2")); TimerExpired])
    by (vm_compute; discriminate).
  split; [exact unlimited_neverRaises|]. split; [exact Hroom|].
  destruct (@write_counter_counts_writes_taken Examples.unlimited
              unlimited_neverRaises
              [Request (Some (StoreRequest.mk STORE "a" "1"));
               Request (Some (StoreRequest.mk STORE "b" "2")); TimerExpired]
              (Examples.synchronousStore ∅) Examples.healthyDisk Hroom)
    as (responses & st' & fs' & E & _ & _ & Hexact).
  exists responses, st', fs'. split; [exact E|].
  apply Hexact; [reflexivity|]. repeat constructor.
Defined.

Lemma writes_bounded_by_firings_or_requests_witness :
  neverRaises Examples.unlimited
  ∧ exists responses st' fs',
      @run Examples.unlimited
        [Request (Some (StoreRequest.mk STORE "a" "1"));
         Request (Some (StoreRequest.mk STORE "b" "2"));
         Request (Some (StoreRequest.mk ERASE "a" "")); TimerExpired]
        (Examples.debouncedStore ∅ idle) Examples.healthyDisk
      = Returns (responses, st', fs')
      ∧ (writeCalls fs' <= 0 + 1)%N.
Proof.
  split; [exact unlimited_neverRaises|].
  destruct (@writes_bounded_by_firings_or_requests Examples.unlimited
              unlimited_neverRaises
              [Request (Some (StoreRequest.mk STORE "a" "1"));
               Request (Some (StoreRequest.mk STORE "b" "2"));
               Request (Some (StoreRequest.mk ERASE "a" "")); TimerExpired]
              (Examples.debouncedStore ∅ idle) Examples.healthyDisk)
    as (responses & st' & fs' & E & _ & Hfirings & _).
  exists responses, st', fs'. split; [exact E|].
  apply Hfirings. eexists; reflexivity.
Defined.

Lemma image_survives_restart_witness :
  roundTrips Examples.unlimited
  ∧ exists fs' st',
      @destroy Examples.unlimited
        (Examples.debouncedStore {[ "a" := "1" ]} (mkTimeout (Some 100%Z)))
        Examples.healthyDisk
      = Returns fs'
      ∧ @make Examples.unlimited true 0 0 fs' = Returns st'
      ∧ database_ st' = StoreDatabase.mk {[ "a" := "1" ]}.
Proof.
  split; [exact unlimited_roundTrips|].
  assert (Hd : @serialize Examples.unlimited
                 (database_ (Examples.debouncedStore {[ "a" := "1" ]}
                               (mkTimeout (Some 100%Z))))
               = Some "10a101") by (vm_compute; reflexivity).
  destruct (@image_survives_restart Examples.unlimited unlimited_roundTrips
              (Examples.debouncedStore {[ "a" := "1" ]} (mkTimeout (Some 100%Z)))
              Examples.healthyDisk "10a101" Hd eq_refl eq_refl)
    as (fs' & E & _ & Hmake).
  destruct (Hmake 0%Z 0%Z) as (st' & E' & Hdb & _).
  by exists fs', st'.
Defined.

(** X10: with a backoff configured, requests of any kind and number, in any
    state of the timer, are answered without the image being serialized and
    without a write of the file being asked for: the run returns for every
    serializer, also one that raises, and the file system and the write
    counter are as they were. *)
Theorem debounced_requests_never_reach_the_disk `{S : Serializer}
    (requests : list (option StoreRequest.t)) (st : t) (fs : FileSystem)
    (Hbackoff : is_Some (saveTimer st)) :
  exists responses st',
    processRequests requests st fs = Returns (responses, st', fs)
    ∧ length responses = length requests
    ∧ numOfWritesToDisk_ st' = numOfWritesToDisk_ st
    ∧ is_Some (saveTimer st').
Proof.
  revert st Hbackoff. induction requests as [|request rest IH]; intros st Ht.
  - by exists [], st.
  - destruct (processRequest_debounced request st fs Ht)
      as (response & st1 & E1 & _ & Hn1 & Ht1 & _).
    destruct (IH st1 Ht1) as (responses & st2 & E2 & Hl & Hn2 & Ht2).
    exists (response :: responses), st2.
    split; [exact (processRequests_cons _ _ _ _ _ _ _ _ _ _ E1 E2)|].
    split; [simpl; by rewrite Hl|]. split; [by rewrite Hn2|exact Ht2].
Qed.

Lemma debounced_requests_never_reach_the_disk_witness :
  is_Some (saveTimer (Examples.debouncedStore ∅ idle))
  ∧ @serialize Examples.limited (StoreDatabase.mk {[ "a" := "12345" ]}) = None
  ∧ exists responses st',
      @processRequests Examples.limited
        [Some (StoreRequest.mk STORE "a" "12345");
         Some (StoreRequest.mk LOAD "a" "")]
        (Examples.debouncedStore ∅ idle) Examples.healthyDisk
      = Returns (responses, st', Examples.healthyDisk)
      ∧ numOfWritesToDisk_ st' = 0%N.
Proof.
  assert (Ht : is_Some (saveTimer (Examples.debouncedStore ∅ idle)))
    by (eexists; reflexivity).
  split; [exact Ht|]. split; [vm_compute; reflexivity|].
  destruct (@debounced_requests_never_reach_the_disk Examples.limited
              [Some (StoreRequest.mk STORE "a" "12345");
               Some (StoreRequest.mk LOAD "a" "")]
              (Examples.debouncedStore ∅ idle) Examples.healthyDisk Ht)
    as (responses & st' & E & _ & Hn & _).
  by exists responses, st'.
Defined.
